(** * Blockly.ShortcutItems: the default keyboard shortcuts

    A shallow embedding of [core/shortcut_items.js] together with a model of
    the shortcut registry it installs its shortcuts into.

    - The seven shortcut definitions (names, preconditions, callbacks) and
      the installer are embedded from the source.
    - [Blockly.ShortcutRegistry] (register, addKeyMapping, createSerializedKey
      and the dispatch loop) and [Blockly.utils.KeyCodes] are not part of the
      source file; the registry is modelled from the specification and the
      key codes are a parameter.
    - The editor surface (selection, gestures, clipboard, history, the
      originating event) is external: its queries are answered by a [World]
      and its calls are recorded, in order, in the world's effect log. *)

From Stdlib Require Import Ascii.
From stdpp Require Import base strings list gmap pretty.

Set Default Proof Using "Type".
Set Warnings "-clear-no-such-hyp".

(* ===================================================================== *)
(** ** Key codes *)

(** [Blockly.utils.KeyCodes] is an enumeration of numbers that the source
    only names.  The members used by [shortcut_items.js] are taken as a
    parameter: every definition and theorem below is generic in the table. *)
Module KeyCodes.
Class t : Type := {
  ESC : N;
  DELETE : N;
  BACKSPACE : N;
  C : N;
  X : N;
  V : N;
  Z : N;
  Y : N;
  SHIFT : N;
  CTRL : N;
  ALT : N;
  META : N
}.

(** The letter keys used by the defaults are pairwise different keys, and
    so are the four modifier keys. *)
Definition distinct (kc : t) : Prop :=
  NoDup [C; X; V; Z; Y] ∧ NoDup [SHIFT; CTRL; ALT; META].

(** The key codes browsers report for these keys; used to run the model on
    concrete input. *)
Definition dom : t := {|
  ESC := 27; DELETE := 46; BACKSPACE := 8;
  C := 67; X := 88; V := 86; Z := 90; Y := 89;
  SHIFT := 16; CTRL := 17; ALT := 18; META := 91
|}.
End KeyCodes.

(* ===================================================================== *)
(** ** The editor surface *)

(** JavaScript values a precondition can return: a boolean, or [null] when
    the chain of [&&] stops at an empty [Blockly.selected]. *)
Inductive value : Type :=
  | VBool (b : bool)
  | VNull.

Definition truthy (v : value) : bool :=
  match v with
  | VBool b => b
  | VNull => false
  end.

(** [a && b]: the left operand if it is falsy, the right one otherwise. *)
Definition js_and (a b : value) : value :=
  if truthy a then b else a.

(** JavaScript groups a chain of [&&] to the left; grouping it to the right
    gives the same value, and lets the rest of a chain use the selected
    item ([selected_and] below). *)
Infix "<&&>" := js_and (at level 41, right associativity).

Record Options : Type := { readOnly : bool }.

Record Workspace : Type := {
  options : Options;
  isFlyout : bool
}.

(** The selected item, as far as the shortcuts look at it. *)
Module ICopyable.
Record t : Type := {
  isDeletable : bool;
  isMovable : bool;
  workspace : Workspace
}.
End ICopyable.

Record Event : Type := {
  keyCode : N;
  ctrlKey : bool;
  altKey : bool;
  shiftKey : bool;
  metaKey : bool
}.

(** Calls made to the external collaborators, with their arguments. *)
Inductive Effect : Type :=
  | PreventDefault (e : Event)
  | HideChaff
  | ClipboardCopy (toCopy : option ICopyable.t)
  | ClipboardPaste
  | DeleteBlock (selected : option ICopyable.t)
  | Undo (workspace : Workspace) (redo : bool).

(** What the shortcuts can observe of the editor ([Blockly.selected],
    [Blockly.Gesture.inProgress()], what [Blockly.clipboard.paste()] reports)
    and the calls made so far, oldest first. *)
Record World : Type := {
  selected : option ICopyable.t;
  Gesture_inProgress : bool;
  clipboard_paste_result : bool;
  effects : list Effect
}.

(** A call to a collaborator is recorded at the end of the log.  What the
    collaborator then does to the editor is outside the model: the answers
    to the queries stay as they are. *)
Definition perform (x : Effect) (w : World) : World :=
  {| selected := selected w;
     Gesture_inProgress := Gesture_inProgress w;
     clipboard_paste_result := clipboard_paste_result w;
     effects := effects w ++ [x] |}.

Definition preventDefault (e : Event) : World → World :=
  perform (PreventDefault e).
Definition hideChaff : World → World :=
  perform HideChaff.
Definition clipboard_copy (toCopy : option ICopyable.t) : World → World :=
  perform (ClipboardCopy toCopy).
Definition clipboard_paste (w : World) : bool * World :=
  (clipboard_paste_result w, perform ClipboardPaste w).
Definition deleteBlock (selected : option ICopyable.t) : World → World :=
  perform (DeleteBlock selected).
Definition undo (workspace : Workspace) (redo : bool) : World → World :=
  perform (Undo workspace redo).

(** [Blockly.selected && f(Blockly.selected)]: an object is truthy, so the
    chain goes on with the selected item, and stops at [null] without one. *)
Definition selected_and (w : World) (f : ICopyable.t → value) : value :=
  match selected w with
  | Some s => f s
  | None => VNull
  end.

(* ===================================================================== *)
(** ** Shortcuts and the registry *)

(** [Blockly.ShortcutRegistry.KeyboardShortcut].  A shortcut without a
    precondition is always eligible. *)
Record KeyboardShortcut : Type := {
  name : string;
  preconditionFn : option (Workspace → World → value);
  callback : Workspace → Event → World → bool * World
}.

Definition eligible (shortcut : KeyboardShortcut)
    (workspace : Workspace) (w : World) : bool :=
  match preconditionFn shortcut with
  | Some p => truthy (p workspace w)
  | None => true
  end.

(** Modelled from the spec: the registry state of [Blockly.ShortcutRegistry],
    which is not in the source: [shortcuts : name → Shortcut] and
    [keyMap : serializedKey → ordered list of name]. *)
Record ShortcutRegistry : Type := {
  shortcuts : gmap string KeyboardShortcut;
  keyMap : gmap string (list string)
}.

Definition empty_registry : ShortcutRegistry :=
  {| shortcuts := ∅; keyMap := ∅ |}.

(** The ordered candidate list of a key; an absent list is an empty one. *)
Definition candidates (r : ShortcutRegistry) (serializedKey : string)
    : list string :=
  default [] (keyMap r !! serializedKey).

Inductive Error : Type :=
  | ShortcutNotRegisteredError (name : string).

(** The calls made to the registry. *)
Inductive RegistryCall : Type :=
  | CallRegister (name : string)
  | CallAddKeyMapping (serializedKey name : string).

(** A registry operation runs on the shared registry; it either returns or
    raises, leaves a registry behind in both cases, and the calls it made
    are recorded in order. *)
Record Outcome (A : Type) : Type := {
  result : Error + A;
  final : ShortcutRegistry;
  trace : list RegistryCall
}.
Arguments result {A} _.
Arguments final {A} _.
Arguments trace {A} _.

Definition M (A : Type) : Type := ShortcutRegistry → Outcome A.

Definition ret {A : Type} (a : A) : M A := λ r,
  {| result := inr a; final := r; trace := [] |}.

Definition bind {A B : Type} (m : M A) (f : A → M B) : M B := λ r,
  let o := m r in
  match result o with
  | inl err => {| result := inl err; final := final o; trace := trace o |}
  | inr a =>
      let o' := f a (final o) in
      {| result := result o'; final := final o';
         trace := trace o ++ trace o' |}
  end.

Notation "m1 ;; m2" := (bind m1 (λ _, m2))
  (at level 100, m2 at level 200, right associativity).

(** The two updates of the registry state. *)
Definition set_shortcut (shortcut : KeyboardShortcut) (r : ShortcutRegistry)
    : ShortcutRegistry :=
  {| shortcuts := <[name shortcut := shortcut]> (shortcuts r);
     keyMap := keyMap r |}.

Definition append_binding (serializedKey name : string)
    (r : ShortcutRegistry) : ShortcutRegistry :=
  {| shortcuts := shortcuts r;
     keyMap := <[serializedKey := candidates r serializedKey ++ [name]]>
                 (keyMap r) |}.

(** Modelled from the spec: [register(shortcut)] of the missing registry:
    inserts or replaces the entry under [shortcut.name]; no error on
    replace. *)
Definition register (shortcut : KeyboardShortcut) : M unit := λ r,
  {| result := inr tt;
     final := set_shortcut shortcut r;
     trace := [CallRegister (name shortcut)] |}.

(** Modelled from the spec: [addKeyMapping(serializedKey, name)] of the
    missing registry: appends [name] to the ordered list for
    [serializedKey], creating the list if absent; fails with
    [ShortcutNotRegisteredError] if [name] is not a registered shortcut. *)
Definition addKeyMapping (serializedKey name : string) : M unit := λ r,
  match shortcuts r !! name with
  | None =>
      {| result := inl (ShortcutNotRegisteredError name);
         final := r;
         trace := [CallAddKeyMapping serializedKey name] |}
  | Some _ =>
      {| result := inr tt;
         final := append_binding serializedKey name r;
         trace := [CallAddKeyMapping serializedKey name] |}
  end.

(** The outcome of dispatching a key. *)
Inductive Resolution : Type :=
  | Handled (name : string)
  | Unhandled.

(** Modelled from the spec: steps 2 to 5 of [resolve] of the missing
    registry: iterate the list in stored order; skip a name whose shortcut
    no longer exists or whose precondition is false; invoke the callback of
    an eligible one; stop when it returns true, go on when it returns
    false; unhandled when the list is exhausted. *)
Fixpoint resolve_candidates (registered : gmap string KeyboardShortcut)
    (names : list string) (context : Workspace) (event : Event) (w : World)
    : Resolution * World :=
  match names with
  | [] => (Unhandled, w)
  | n :: rest =>
      match registered !! n with
      | None => resolve_candidates registered rest context event w
      | Some shortcut =>
          if eligible shortcut context w then
            let '(handled, w') := callback shortcut context event w in
            if handled then (Handled n, w')
            else resolve_candidates registered rest context event w'
          else resolve_candidates registered rest context event w
      end
  end.

(** Modelled from the spec: [resolve(serializedKey, context, event)] of the
    missing registry: step 1 looks up the ordered candidate list of the key
    (absent or empty: unhandled), then the list is iterated. *)
Definition resolve (r : ShortcutRegistry) (serializedKey : string)
    (context : Workspace) (event : Event) (w : World) : Resolution * World :=
  resolve_candidates (shortcuts r) (candidates r serializedKey)
    context event w.

(* ===================================================================== *)
(** ** The key serializer and the default shortcuts *)

(** [names]: the names of the default shortcut items. *)
Module names.
Definition ESCAPE : string := "escape".
Definition DELETE : string := "delete".
Definition COPY : string := "copy".
Definition CUT : string := "cut".
Definition PASTE : string := "paste".
Definition UNDO : string := "undo".
Definition REDO : string := "redo".
End names.

Section ShortcutItems.
Context {kc : KeyCodes.t}.

(** Modelled from the spec: the fixed modifier set of the missing key
    serializer, in the order in which a serialized key names its modifiers:
    control, alt, shift, meta. *)
Definition modifierKeys : list (string * N) :=
  [("Control", KeyCodes.CTRL); ("Alt", KeyCodes.ALT);
   ("Shift", KeyCodes.SHIFT); ("Meta", KeyCodes.META)].

(** Modelled from the spec: [createSerializedKey(primaryKey, modifiers)] of
    the missing registry: a canonical string for a primary key and an
    unordered collection of modifier keys.  The modifiers that occur in the
    collection are written in the canonical order, each followed by a plus
    sign, and then the key code in decimal, so that a key without modifiers
    is serialized as the key code itself (the source binds Escape, Delete
    and Backspace by their bare key codes). *)
Definition createSerializedKey (keyCode : N) (modifiers : list N) : string :=
  foldr (λ m serializedKey, m.1 +:+ "+" +:+ serializedKey)
    (pretty keyCode)
    (filter (λ m, m.2 ∈ modifiers) modifierKeys).

(** Keyboard shortcut to hide chaff on escape. *)
Definition escapeAction : KeyboardShortcut := {|
  name := names.ESCAPE;
  preconditionFn := Some (λ workspace w,
    VBool (negb (readOnly (options workspace))));
  callback := λ workspace e w,
    let w := hideChaff w in
    (true, w)
|}.

(** The Escape key is bound by its bare key code; as a key of the key map a
    number stands for its decimal string. *)
Definition registerEscape : M unit :=
  register escapeAction ;;
  addKeyMapping (pretty KeyCodes.ESC) (name escapeAction).

(** Keyboard shortcut to delete a block on delete or backspace. *)
Definition deleteShortcut : KeyboardShortcut := {|
  name := names.DELETE;
  preconditionFn := Some (λ workspace w,
    VBool (negb (readOnly (options workspace))) <&&>
    selected_and w (λ selected,
      VBool (ICopyable.isDeletable selected)));
  callback := λ workspace e w,
    let w := preventDefault e w in
    if Gesture_inProgress w then (false, w)
    else
      let w := deleteBlock (selected w) w in
      (true, w)
|}.

Definition registerDelete : M unit :=
  register deleteShortcut ;;
  addKeyMapping (pretty KeyCodes.DELETE) (name deleteShortcut) ;;
  addKeyMapping (pretty KeyCodes.BACKSPACE) (name deleteShortcut).

(** Keyboard shortcut to copy a block on ctrl+c, cmd+c, or alt+c. *)
Definition copyShortcut : KeyboardShortcut := {|
  name := names.COPY;
  preconditionFn := Some (λ workspace w,
    VBool (negb (readOnly (options workspace))) <&&>
    VBool (negb (Gesture_inProgress w)) <&&>
    selected_and w (λ selected,
      VBool (ICopyable.isDeletable selected) <&&>
      VBool (ICopyable.isMovable selected)));
  callback := λ workspace e w,
    let w := preventDefault e w in
    let w := hideChaff w in
    let w := clipboard_copy (selected w) w in
    (true, w)
|}.

Definition registerCopy : M unit :=
  register copyShortcut ;;
  let ctrlC := createSerializedKey KeyCodes.C [KeyCodes.CTRL] in
  addKeyMapping ctrlC (name copyShortcut) ;;
  let altC := createSerializedKey KeyCodes.C [KeyCodes.ALT] in
  addKeyMapping altC (name copyShortcut) ;;
  let metaC := createSerializedKey KeyCodes.C [KeyCodes.META] in
  addKeyMapping metaC (name copyShortcut).

(** Keyboard shortcut to copy and delete a block on ctrl+x, cmd+x, or
    alt+x. *)
Definition cutShortcut : KeyboardShortcut := {|
  name := names.CUT;
  preconditionFn := Some (λ workspace w,
    VBool (negb (readOnly (options workspace))) <&&>
    VBool (negb (Gesture_inProgress w)) <&&>
    selected_and w (λ selected,
      VBool (ICopyable.isDeletable selected) <&&>
      VBool (ICopyable.isMovable selected) <&&>
      VBool (negb (isFlyout (ICopyable.workspace selected)))));
  callback := λ workspace e w,
    let w := clipboard_copy (selected w) w in
    let w := deleteBlock (selected w) w in
    (true, w)
|}.

Definition registerCut : M unit :=
  register cutShortcut ;;
  let ctrlX := createSerializedKey KeyCodes.X [KeyCodes.CTRL] in
  addKeyMapping ctrlX (name cutShortcut) ;;
  let altX := createSerializedKey KeyCodes.X [KeyCodes.ALT] in
  addKeyMapping altX (name cutShortcut) ;;
  let metaX := createSerializedKey KeyCodes.X [KeyCodes.META] in
  addKeyMapping metaX (name cutShortcut).

(** Keyboard shortcut to paste a block on ctrl+v, cmd+v, or alt+v. *)
Definition pasteShortcut : KeyboardShortcut := {|
  name := names.PASTE;
  preconditionFn := Some (λ workspace w,
    VBool (negb (readOnly (options workspace))) <&&>
    VBool (negb (Gesture_inProgress w)));
  callback := λ workspace e w,
    clipboard_paste w
|}.

Definition registerPaste : M unit :=
  register pasteShortcut ;;
  let ctrlV := createSerializedKey KeyCodes.V [KeyCodes.CTRL] in
  addKeyMapping ctrlV (name pasteShortcut) ;;
  let altV := createSerializedKey KeyCodes.V [KeyCodes.ALT] in
  addKeyMapping altV (name pasteShortcut) ;;
  let metaV := createSerializedKey KeyCodes.V [KeyCodes.META] in
  addKeyMapping metaV (name pasteShortcut).

(** Keyboard shortcut to undo the previous action on ctrl+z, cmd+z, or
    alt+z. *)
Definition undoShortcut : KeyboardShortcut := {|
  name := names.UNDO;
  preconditionFn := Some (λ workspace w,
    VBool (negb (readOnly (options workspace))) <&&>
    VBool (negb (Gesture_inProgress w)));
  callback := λ workspace e w,
    let w := hideChaff w in
    let w := undo workspace false w in
    (true, w)
|}.

Definition registerUndo : M unit :=
  register undoShortcut ;;
  let ctrlZ := createSerializedKey KeyCodes.Z [KeyCodes.CTRL] in
  addKeyMapping ctrlZ (name undoShortcut) ;;
  let altZ := createSerializedKey KeyCodes.Z [KeyCodes.ALT] in
  addKeyMapping altZ (name undoShortcut) ;;
  let metaZ := createSerializedKey KeyCodes.Z [KeyCodes.META] in
  addKeyMapping metaZ (name undoShortcut).

(** Keyboard shortcut to redo the previous action on ctrl+shift+z,
    cmd+shift+z, or alt+shift+z. *)
Definition redoShortcut : KeyboardShortcut := {|
  name := names.REDO;
  preconditionFn := Some (λ workspace w,
    VBool (negb (Gesture_inProgress w)) <&&>
    VBool (negb (readOnly (options workspace))));
  callback := λ workspace e w,
    let w := hideChaff w in
    let w := undo workspace true w in
    (true, w)
|}.

Definition registerRedo : M unit :=
  register redoShortcut ;;
  let ctrlShiftZ :=
    createSerializedKey KeyCodes.Z [KeyCodes.SHIFT; KeyCodes.CTRL] in
  addKeyMapping ctrlShiftZ (name redoShortcut) ;;
  let altShiftZ :=
    createSerializedKey KeyCodes.Z [KeyCodes.SHIFT; KeyCodes.ALT] in
  addKeyMapping altShiftZ (name redoShortcut) ;;
  let metaShiftZ :=
    createSerializedKey KeyCodes.Z [KeyCodes.SHIFT; KeyCodes.META] in
  addKeyMapping metaShiftZ (name redoShortcut) ;;
  let ctrlY := createSerializedKey KeyCodes.Y [KeyCodes.CTRL] in
  addKeyMapping ctrlY (name redoShortcut).

(** Registers all default keyboard shortcut items. *)
Definition registerDefaultShortcuts : M unit :=
  registerEscape ;;
  registerDelete ;;
  registerCopy ;;
  registerCut ;;
  registerPaste ;;
  registerUndo ;;
  registerRedo.

(** The keys the installer binds to each shortcut, in the order of its
    calls. *)
Definition escapeKeys : list string :=
  [pretty KeyCodes.ESC].
Definition deleteKeys : list string :=
  [pretty KeyCodes.DELETE; pretty KeyCodes.BACKSPACE].
Definition copyKeys : list string :=
  [createSerializedKey KeyCodes.C [KeyCodes.CTRL];
   createSerializedKey KeyCodes.C [KeyCodes.ALT];
   createSerializedKey KeyCodes.C [KeyCodes.META]].
Definition cutKeys : list string :=
  [createSerializedKey KeyCodes.X [KeyCodes.CTRL];
   createSerializedKey KeyCodes.X [KeyCodes.ALT];
   createSerializedKey KeyCodes.X [KeyCodes.META]].
Definition pasteKeys : list string :=
  [createSerializedKey KeyCodes.V [KeyCodes.CTRL];
   createSerializedKey KeyCodes.V [KeyCodes.ALT];
   createSerializedKey KeyCodes.V [KeyCodes.META]].
Definition undoKeys : list string :=
  [createSerializedKey KeyCodes.Z [KeyCodes.CTRL];
   createSerializedKey KeyCodes.Z [KeyCodes.ALT];
   createSerializedKey KeyCodes.Z [KeyCodes.META]].
Definition redoKeys : list string :=
  [createSerializedKey KeyCodes.Z [KeyCodes.SHIFT; KeyCodes.CTRL];
   createSerializedKey KeyCodes.Z [KeyCodes.SHIFT; KeyCodes.ALT];
   createSerializedKey KeyCodes.Z [KeyCodes.SHIFT; KeyCodes.META];
   createSerializedKey KeyCodes.Y [KeyCodes.CTRL]].

(** The key bindings the installer makes, as (key, name) pairs in the order
    of its calls. *)
Definition defaultBindings : list (string * string) :=
  ((λ k, (k, names.ESCAPE)) <$> escapeKeys)
  ++ ((λ k, (k, names.DELETE)) <$> deleteKeys)
  ++ ((λ k, (k, names.COPY)) <$> copyKeys)
  ++ ((λ k, (k, names.CUT)) <$> cutKeys)
  ++ ((λ k, (k, names.PASTE)) <$> pasteKeys)
  ++ ((λ k, (k, names.UNDO)) <$> undoKeys)
  ++ ((λ k, (k, names.REDO)) <$> redoKeys).

(** The names the installer appends to the candidate list of a key. *)
Definition boundNames (serializedKey : string) : list string :=
  (filter (λ b, b.1 = serializedKey) defaultBindings).*2.

(** The seven default definitions, by name. *)
Definition defaultShortcuts : gmap string KeyboardShortcut :=
  <[names.REDO := redoShortcut]> (
  <[names.UNDO := undoShortcut]> (
  <[names.PASTE := pasteShortcut]> (
  <[names.CUT := cutShortcut]> (
  <[names.COPY := copyShortcut]> (
  <[names.DELETE := deleteShortcut]> (
  <[names.ESCAPE := escapeAction]> ∅)))))).

(** The registry of a freshly loaded module: the installer has run once on
    the empty registry. *)
Definition installed : ShortcutRegistry :=
  final (registerDefaultShortcuts empty_registry).

(** A modifier collection drawn from control, alt, shift and meta. *)
Definition supported (modifiers : list N) : Prop :=
  Forall (λ m, m ∈ modifierKeys.*2) modifiers.

End ShortcutItems.

(** Two collections with the same elements, whatever their order and
    multiplicity. *)
Definition same_set {A : Type} (l1 l2 : list A) : Prop :=
  ∀ x, x ∈ l1 ↔ x ∈ l2.

(* ===================================================================== *)
(** ** Concrete inputs *)

(** A writable workspace, a ctrl+C key event, and an editor in which the
    selected block can be deleted but not moved; used to run the model. *)
Definition sample_workspace : Workspace :=
  {| options := {| readOnly := false |}; isFlyout := false |}.

Definition sample_event : Event :=
  {| keyCode := 67; ctrlKey := true; altKey := false;
     shiftKey := false; metaKey := false |}.

Definition sample_block : ICopyable.t :=
  {| ICopyable.isDeletable := true;
     ICopyable.isMovable := false;
     ICopyable.workspace := sample_workspace |}.

Definition sample_world : World :=
  {| selected := Some sample_block;
     Gesture_inProgress := false;
     clipboard_paste_result := true;
     effects := [] |}.

(** The same editor in the middle of a drag. *)
Definition dragging_world : World :=
  {| selected := Some sample_block;
     Gesture_inProgress := true;
     clipboard_paste_result := true;
     effects := [] |}.

(** A shortcut that is always eligible and only records that it ran. *)
Definition fallback_shortcut : KeyboardShortcut :=
  {| name := "fallback";
     preconditionFn := None;
     callback := λ workspace e w, (true, hideChaff w) |}.

(* ===================================================================== *)
(** ** Notions used to state the properties *)

(** The candidates of [names] are tried in order from world [w] and none of
    them handles the event: each one is unregistered, or not eligible, or
    its callback is invoked and returns false; [w'] is the world after the
    last of them. *)
Inductive FallsThrough (registered : gmap string KeyboardShortcut)
    (context : Workspace) (event : Event)
    : list string → World → World → Prop :=
  | ft_done w :
      FallsThrough registered context event [] w w
  | ft_unregistered n rest w w' :
      registered !! n = None →
      FallsThrough registered context event rest w w' →
      FallsThrough registered context event (n :: rest) w w'
  | ft_ineligible n shortcut rest w w' :
      registered !! n = Some shortcut →
      eligible shortcut context w = false →
      FallsThrough registered context event rest w w' →
      FallsThrough registered context event (n :: rest) w w'
  | ft_declined n shortcut rest w w1 w' :
      registered !! n = Some shortcut →
      eligible shortcut context w = true →
      callback shortcut context event w = (false, w1) →
      FallsThrough registered context event rest w1 w' →
      FallsThrough registered context event (n :: rest) w w'.

(** A string without a plus sign: a modifier name, or a key code in
    decimal. *)
Fixpoint plus_free (s : string) : Prop :=
  match s with
  | EmptyString => True
  | String c s' => c ≠ "+"%char ∧ plus_free s'
  end.

(** The registry after binding each of [keys], in order, to one name. *)
Definition bind_keys (name : string) (keys : list string)
    (r : ShortcutRegistry) : ShortcutRegistry :=
  foldl (λ r k, append_binding k name r) r keys.

(** The calls of registering a shortcut and binding [keys] to it. *)
Definition calls_of (shortcut : KeyboardShortcut) (keys : list string)
    : list RegistryCall :=
  CallRegister (name shortcut)
  :: ((λ k, CallAddKeyMapping k (name shortcut)) <$> keys).

(** The registry after registering a shortcut and binding [keys] to it. *)
Definition install (shortcut : KeyboardShortcut) (keys : list string)
    (r : ShortcutRegistry) : ShortcutRegistry :=
  bind_keys (name shortcut) keys (set_shortcut shortcut r).

(** The registry one run of the installer leaves. *)
Definition installDefaults {kc : KeyCodes.t} (r : ShortcutRegistry)
    : ShortcutRegistry :=
  install redoShortcut redoKeys (
  install undoShortcut undoKeys (
  install pasteShortcut pasteKeys (
  install cutShortcut cutKeys (
  install copyShortcut copyKeys (
  install deleteShortcut deleteKeys (
  install escapeAction escapeKeys r)))))).

(** The calls of one run of the installer. *)
Definition defaultCalls {kc : KeyCodes.t} : list RegistryCall :=
  calls_of escapeAction escapeKeys
  ++ calls_of deleteShortcut deleteKeys
  ++ calls_of copyShortcut copyKeys
  ++ calls_of cutShortcut cutKeys
  ++ calls_of pasteShortcut pasteKeys
  ++ calls_of undoShortcut undoKeys
  ++ calls_of redoShortcut redoKeys.

(** In a sequence of registry calls, every [addKeyMapping] for a name comes
    after a [register] of that name. *)
Definition registered_before_bound (calls : list RegistryCall) : Prop :=
  ∀ before after serializedKey name,
    calls = before ++ CallAddKeyMapping serializedKey name :: after →
    CallRegister name ∈ before.

(** The same as a check that runs over the calls, with the names registered
    so far. *)
Fixpoint check_registered_before (seen : list string)
    (calls : list RegistryCall) : bool :=
  match calls with
  | [] => true
  | CallRegister n :: rest => check_registered_before (n :: seen) rest
  | CallAddKeyMapping _ n :: rest =>
      bool_decide (n ∈ seen) && check_registered_before seen rest
  end.

(** No candidate list of the registry names an unregistered shortcut. *)
Definition bindings_closed (r : ShortcutRegistry) : Prop :=
  ∀ serializedKey name,
    name ∈ candidates r serializedKey → is_Some (shortcuts r !! name).

(* ===================================================================== *)
(** ** Notions used for the rest of the module *)

(** The bare keys the installer binds are different keys. *)
Definition distinct_bare_keys (kc : KeyCodes.t) : Prop :=
  NoDup [KeyCodes.ESC; KeyCodes.DELETE; KeyCodes.BACKSPACE].

(** The seven names of [names], in the order of the installer. *)
Definition defaultNames : list string :=
  [names.ESCAPE; names.DELETE; names.COPY; names.CUT; names.PASTE;
   names.UNDO; names.REDO].

(** A call that edits nothing: dismissing the transient UI, or preventing
    the browser's default action. *)
Definition harmless (x : Effect) : Prop :=
  x = HideChaff ∨ ∃ e, x = PreventDefault e.

(** A block that can be deleted and moved, in a workspace that is not a
    flyout, and an editor that has it selected. *)
Definition movable_block : ICopyable.t :=
  {| ICopyable.isDeletable := true;
     ICopyable.isMovable := true;
     ICopyable.workspace := sample_workspace |}.

Definition movable_world : World :=
  {| selected := Some movable_block;
     Gesture_inProgress := false;
     clipboard_paste_result := false;
     effects := [] |}.

Definition read_only_workspace : Workspace :=
  {| options := {| readOnly := true |}; isFlyout := false |}.

(* ===================================================================== *)
(** ** The registry: binding and dispatch *)

Section Registry.
Implicit Types (r : ShortcutRegistry) (w : World).

Lemma candidates_set_shortcut shortcut r k :
  candidates (set_shortcut shortcut r) k = candidates r k.
Proof. reflexivity. Qed.

Lemma candidates_append_binding k n r k' :
  candidates (append_binding k n r) k'
  = candidates r k' ++ (if decide (k = k') then [n] else []).
Proof.
  unfold candidates at 1, append_binding; simpl.
  rewrite lookup_insert. case_decide as Hk.
  - subst k'. reflexivity.
  - rewrite app_nil_r. reflexivity.
Qed.

(** Sequencing: when the first operation returns, the second runs on the
    registry it left, and the calls add up. *)
Lemma bind_run {A B : Type} (m : M A) (f : A → M B) r a r' t res r'' t' :
  m r = {| result := inr a; final := r'; trace := t |} →
  f a r' = {| result := res; final := r''; trace := t' |} →
  bind m f r = {| result := res; final := r''; trace := t ++ t' |}.
Proof. intros H1 H2. unfold bind. rewrite H1. cbn. rewrite H2. reflexivity. Qed.

Lemma addKeyMapping_registered k n r :
  is_Some (shortcuts r !! n) →
  addKeyMapping k n r
  = {| result := inr tt;
       final := append_binding k n r;
       trace := [CallAddKeyMapping k n] |}.
Proof. intros [shortcut Hn]. unfold addKeyMapping. rewrite Hn. reflexivity. Qed.

(** A list that falls through resolves to unhandled, in the world the last
    declined callback left. *)
Lemma resolve_candidates_falls_through registered context event names w w' :
  FallsThrough registered context event names w w' →
  resolve_candidates registered names context event w = (Unhandled, w').
Proof.
  induction 1 as [w|n rest w w' Hn _ IH|n sc rest w w' Hn Hel _ IH
                 |n sc rest w w1 w' Hn Hel Hcb _ IH]; simpl.
  - reflexivity.
  - rewrite Hn. exact IH.
  - rewrite Hn, Hel. exact IH.
  - rewrite Hn, Hel, Hcb. exact IH.
Qed.

(** Candidates that fall through in front of a list do not change what the
    list resolves to, except for the world their callbacks leave. *)
Lemma resolve_candidates_skip registered context event before names w w1 :
  FallsThrough registered context event before w w1 →
  resolve_candidates registered (before ++ names) context event w
  = resolve_candidates registered names context event w1.
Proof.
  induction 1 as [w|n rest w w' Hn _ IH|n sc rest w w' Hn Hel _ IH
                 |n sc rest w w1 w' Hn Hel Hcb _ IH]; simpl.
  - reflexivity.
  - rewrite Hn. exact IH.
  - rewrite Hn, Hel. exact IH.
  - rewrite Hn, Hel, Hcb. exact IH.
Qed.

(** Every run of the dispatch loop is of one of the two shapes: all
    candidates fall through, or a prefix falls through and the next
    candidate is eligible and consumes the event. *)
Lemma resolve_candidates_inv registered context event names w res w' :
  resolve_candidates registered names context event w = (res, w') →
  match res with
  | Unhandled => FallsThrough registered context event names w w'
  | Handled n =>
      ∃ before after shortcut w1,
        names = before ++ n :: after ∧
        FallsThrough registered context event before w w1 ∧
        registered !! n = Some shortcut ∧
        eligible shortcut context w1 = true ∧
        callback shortcut context event w1 = (true, w')
  end.
Proof.
  revert w. induction names as [|n rest IH]; intros w; simpl.
  - intros [= <- <-]. constructor.
  - destruct (registered !! n) as [sc|] eqn:Hn.
    + destruct (eligible sc context w) eqn:Hel.
      * destruct (callback sc context event w) as [[] w1] eqn:Hcb.
        -- intros [= <- <-]. exists [], rest, sc, w.
           split; [reflexivity|]. split; [constructor|]. done.
        -- intros Hres. specialize (IH _ Hres). destruct res as [m|].
           ++ destruct IH as (before & after & sc' & w2 & -> & Hft & Hrest).
              exists (n :: before), after, sc', w2.
              split; [reflexivity|]. split; [|exact Hrest].
              eapply ft_declined; eauto.
           ++ eapply ft_declined; eauto.
      * intros Hres. specialize (IH _ Hres). destruct res as [m|].
        -- destruct IH as (before & after & sc' & w2 & -> & Hft & Hrest).
           exists (n :: before), after, sc', w2.
           split; [reflexivity|]. split; [|exact Hrest].
           eapply ft_ineligible; eauto.
        -- eapply ft_ineligible; eauto.
    + intros Hres. specialize (IH _ Hres). destruct res as [m|].
      * destruct IH as (before & after & sc' & w2 & -> & Hft & Hrest).
        exists (n :: before), after, sc', w2.
        split; [reflexivity|]. split; [|exact Hrest].
        eapply ft_unregistered; eauto.
      * eapply ft_unregistered; eauto.
Qed.

(** An eligible candidate whose callback returns true ends the dispatch. *)
Lemma resolve_candidates_stop registered context event n shortcut rest w w' :
  registered !! n = Some shortcut →
  eligible shortcut context w = true →
  callback shortcut context event w = (true, w') →
  resolve_candidates registered (n :: rest) context event w = (Handled n, w').
Proof. intros Hn Hel Hcb. simpl. rewrite Hn, Hel, Hcb. reflexivity. Qed.

(** C1: resolve tries the names bound to the key strictly in the order in
    which addKeyMapping inserted them.  It reports "handled by n" exactly
    when the candidates in front of n all fall through (each is
    unregistered, fails its precondition, or is invoked and returns false)
    and n is registered, passes its precondition and its callback returns
    true; the candidates after n are not tried.  It reports "unhandled"
    exactly when every candidate falls through.  The stored order is the
    insertion order: binding a registered name puts it last in the list of
    its key and leaves the other lists alone. *)
Theorem resolve_in_insertion_order r serializedKey context event w w' :
  (∀ n,
     resolve r serializedKey context event w = (Handled n, w') ↔
     ∃ before after shortcut w1,
       candidates r serializedKey = before ++ n :: after ∧
       FallsThrough (shortcuts r) context event before w w1 ∧
       shortcuts r !! n = Some shortcut ∧
       eligible shortcut context w1 = true ∧
       callback shortcut context event w1 = (true, w'))
  ∧ (resolve r serializedKey context event w = (Unhandled, w') ↔
     FallsThrough (shortcuts r) context event
       (candidates r serializedKey) w w')
  ∧ (∀ n k,
       is_Some (shortcuts r !! n) →
       candidates (final (addKeyMapping serializedKey n r)) k
       = if decide (serializedKey = k) then candidates r k ++ [n]
         else candidates r k).
Proof.
  unfold resolve. split; [|split].
  - intros n. split.
    + intros Hres. exact (resolve_candidates_inv _ _ _ _ _ _ _ Hres).
    + intros (before & after & sc & w1 & -> & Hft & Hn & Hel & Hcb).
      rewrite (resolve_candidates_skip _ _ _ _ _ _ _ Hft).
      eapply resolve_candidates_stop; eauto.
  - split.
    + intros Hres. exact (resolve_candidates_inv _ _ _ _ _ _ _ Hres).
    + apply resolve_candidates_falls_through.
  - intros n k Hn. rewrite addKeyMapping_registered by done. simpl.
    rewrite candidates_append_binding.
    case_decide; [reflexivity|apply app_nil_r].
Qed.

(** C4: binding a key to a name that is not registered raises
    ShortcutNotRegisteredError and leaves the registry, and so its key map,
    as it was. *)
Theorem addKeyMapping_unregistered_fails r serializedKey n :
  shortcuts r !! n = None →
  result (addKeyMapping serializedKey n r)
    = inl (ShortcutNotRegisteredError n)
  ∧ final (addKeyMapping serializedKey n r) = r
  ∧ keyMap (final (addKeyMapping serializedKey n r)) = keyMap r.
Proof.
  intros Hn. unfold addKeyMapping. rewrite Hn. simpl. done.
Qed.

(** C4 on the empty registry: binding ctrl+Z to "undo" before anything is
    registered. *)
Lemma addKeyMapping_unregistered_fails_witness :
  result (addKeyMapping "Control+90" "undo" empty_registry)
    = inl (ShortcutNotRegisteredError "undo")
  ∧ final (addKeyMapping "Control+90" "undo" empty_registry)
    = empty_registry
  ∧ keyMap (final (addKeyMapping "Control+90" "undo" empty_registry))
    = keyMap empty_registry.
Proof.
  apply (addKeyMapping_unregistered_fails empty_registry "Control+90" "undo").
  reflexivity.
Defined.

End Registry.

(* ===================================================================== *)
(** ** The key serializer *)

Section Serializer.
Context {kc : KeyCodes.t}.
Implicit Types (k : N) (M : list N) (s : string).

Lemma plus_free_pretty_N_go k s : plus_free s → plus_free (pretty_N_go k s).
Proof.
  revert s. induction (N.lt_wf_0 k) as [k _ IH]; intros s Hs.
  destruct (decide (k = 0%N)) as [->|Hk].
  - rewrite pretty_N_go_0. exact Hs.
  - rewrite pretty_N_go_step by lia. apply IH.
    + apply N.div_lt; lia.
    + split; [|exact Hs].
      unfold pretty_N_char. repeat case_match; discriminate.
Qed.

Lemma plus_free_pretty k : plus_free (pretty k).
Proof.
  unfold pretty, pretty_N. case_decide.
  - simpl. split; [discriminate|exact I].
  - apply plus_free_pretty_N_go. exact I.
Qed.

Lemma append_nil s : "" +:+ s = s.
Proof. reflexivity. Qed.

Lemma append_cons c s1 s2 : String c s1 +:+ s2 = String c (s1 +:+ s2).
Proof. reflexivity. Qed.

(** The first plus sign of a string splits it in one way only. *)
Lemma app_plus_inj s1 s2 t1 t2 :
  plus_free s1 → plus_free s2 →
  s1 +:+ "+" +:+ t1 = s2 +:+ "+" +:+ t2 → s1 = s2 ∧ t1 = t2.
Proof.
  revert s2. induction s1 as [|c s1 IH]; intros [|c' s2];
    rewrite ?append_cons, ?append_nil; simpl.
  - intros _ _ [= ->]. done.
  - intros _ [Hc _] [= <-]. done.
  - intros [Hc _] _ [= ->]. done.
  - intros [_ H1] [_ H2] [= -> Heq].
    destruct (IH _ H1 H2 Heq) as [-> ->]. done.
Qed.

Lemma app_plus_not_plus_free s t d :
  plus_free d → s +:+ "+" +:+ t ≠ d.
Proof.
  revert d. induction s as [|c s IH]; intros [|c' d];
    rewrite ?append_cons, ?append_nil; simpl; try done.
  - intros [Hc _] [= <-]. done.
  - intros [_ Hd] [= _ Heq]. exact (IH _ Hd Heq).
Qed.

(** The serialized form determines the key code and the names written in
    front of it. *)
Lemma serialized_inj (l1 l2 : list (string * N)) k1 k2 :
  Forall (λ m, plus_free m.1) l1 → Forall (λ m, plus_free m.1) l2 →
  foldr (λ m acc, m.1 +:+ "+" +:+ acc) (pretty k1) l1
  = foldr (λ m acc, m.1 +:+ "+" +:+ acc) (pretty k2) l2 →
  l1.*1 = l2.*1 ∧ k1 = k2.
Proof.
  revert l2. induction l1 as [|m1 l1 IH]; intros [|m2 l2] H1 H2; simpl.
  - intros Heq. split; [reflexivity|]. by apply (inj pretty).
  - intros Heq. symmetry in Heq.
    destruct (app_plus_not_plus_free _ _ _ (plus_free_pretty k1) Heq).
  - intros Heq.
    destruct (app_plus_not_plus_free _ _ _ (plus_free_pretty k2) Heq).
  - intros Heq.
    apply Forall_cons in H1 as [Hm1 H1]. apply Forall_cons in H2 as [Hm2 H2].
    apply app_plus_inj in Heq as [Hname Heq]; [|done..].
    destruct (IH _ H1 H2 Heq) as [Hl ->].
    split; [|reflexivity]. f_equal; [exact Hname|exact Hl].
Qed.

Lemma modifierKeys_plus_free (P : string * N → Prop) `{∀ m, Decision (P m)} :
  Forall (λ m, plus_free m.1) (filter P modifierKeys).
Proof.
  apply Forall_forall. intros m [_ Hm]%list_elem_of_filter.
  unfold modifierKeys in Hm.
  repeat (apply elem_of_cons in Hm as [->|Hm]; [simpl; by repeat split|]).
  by apply elem_of_nil in Hm.
Qed.

(** The names of the modifiers kept by a filter tell which ones were kept:
    the four names are different. *)
Lemma modifierKeys_filter_names (P Q : string * N → Prop)
    `{∀ m, Decision (P m)} `{∀ m, Decision (Q m)} :
  (filter P modifierKeys).*1 = (filter Q modifierKeys).*1 →
  ∀ m, m ∈ modifierKeys → P m ↔ Q m.
Proof.
  assert (Hkey : ∀ (P Q : string * N → Prop)
                   `{∀ m, Decision (P m)} `{∀ m, Decision (Q m)},
             (filter P modifierKeys).*1 = (filter Q modifierKeys).*1 →
             ∀ m, m ∈ modifierKeys → P m → Q m).
  { clear. intros P Q ? ? Heq m Hm HP.
    assert (m.1 ∈ (filter Q modifierKeys).*1) as Hin.
    { rewrite <- Heq. apply list_elem_of_fmap_2.
      apply list_elem_of_filter. done. }
    apply list_elem_of_fmap in Hin as (m' & Hname & [HQ Hm']%list_elem_of_filter).
    enough (m = m') by congruence.
    unfold modifierKeys in Hm, Hm'.
    repeat (apply elem_of_cons in Hm as [->|Hm]);
      try (by apply elem_of_nil in Hm);
      repeat (apply elem_of_cons in Hm' as [->|Hm']);
      try (by apply elem_of_nil in Hm'); simpl in Hname;
      first [reflexivity | discriminate]. }
  intros Heq m Hm. split.
  - exact (Hkey P Q _ _ Heq m Hm).
  - exact (Hkey Q P _ _ (eq_sym Heq) m Hm).
Qed.

(** Serialization only looks at which modifiers occur in the collection. *)
Lemma createSerializedKey_same_set k M1 M2 :
  same_set M1 M2 → createSerializedKey k M1 = createSerializedKey k M2.
Proof.
  intros HM. unfold createSerializedKey. f_equal.
  apply list_filter_iff. intros m. apply HM.
Qed.

(** Equal serialized keys have the same key code and agree on each of the
    four modifiers. *)
Lemma createSerializedKey_inj k1 k2 M1 M2 :
  createSerializedKey k1 M1 = createSerializedKey k2 M2 →
  k1 = k2 ∧ ∀ m, m ∈ modifierKeys.*2 → m ∈ M1 ↔ m ∈ M2.
Proof.
  unfold createSerializedKey. intros Heq.
  apply serialized_inj in Heq as [Hnames ->];
    [|apply modifierKeys_plus_free..].
  split; [reflexivity|].
  intros m (m' & -> & Hm')%list_elem_of_fmap.
  exact (modifierKeys_filter_names _ _ Hnames m' Hm').
Qed.

(** A key without modifiers is serialized as its key code. *)
Lemma createSerializedKey_bare k : createSerializedKey k [] = pretty k.
Proof. reflexivity. Qed.

(** C3: on modifier collections drawn from control, alt, shift and meta,
    two serialized keys are equal exactly when the primary keys are equal
    and the collections are equal as sets: collections with the same
    elements, in any order, serialize alike, and a different primary key or
    a different modifier set gives a different result. *)
Theorem createSerializedKey_canonical k1 k2 M1 M2 :
  supported M1 → supported M2 →
  createSerializedKey k1 M1 = createSerializedKey k2 M2
  ↔ k1 = k2 ∧ same_set M1 M2.
Proof.
  intros H1 H2. split.
  - intros [-> HM]%createSerializedKey_inj. split; [reflexivity|].
    unfold supported in H1, H2. rewrite Forall_forall in H1, H2.
    intros m. split; intros Hm.
    + apply HM; auto.
    + apply HM; auto.
  - intros [-> HM]. by apply createSerializedKey_same_set.
Qed.

End Serializer.

(** C3 on ctrl+shift+Z, with the modifiers given in either order. *)
Lemma createSerializedKey_canonical_witness :
  createSerializedKey (kc := KeyCodes.dom) 90 [16; 17]%N
  = createSerializedKey (kc := KeyCodes.dom) 90 [17; 16]%N
  ↔ 90%N = 90%N ∧ same_set [16; 17]%N [17; 16]%N.
Proof.
  apply (createSerializedKey_canonical (kc := KeyCodes.dom)
           90 90 [16; 17]%N [17; 16]%N).
  - unfold supported. repeat constructor; simpl; set_solver.
  - unfold supported. repeat constructor; simpl; set_solver.
Defined.

(* ===================================================================== *)
(** ** The installer *)

Section Installer.
Context {kc : KeyCodes.t}.
Implicit Types (r : ShortcutRegistry) (k : string).

Lemma shortcuts_bind_keys n keys r :
  shortcuts (bind_keys n keys r) = shortcuts r.
Proof.
  unfold bind_keys. revert r.
  induction keys as [|k keys IH]; intros r; simpl; [reflexivity|].
  rewrite IH. reflexivity.
Qed.

Lemma candidates_bind_keys n keys r k :
  candidates (bind_keys n keys r) k
  = candidates r k ++ (filter (λ b, b.1 = k) ((λ k', (k', n)) <$> keys)).*2.
Proof.
  unfold bind_keys. revert r.
  induction keys as [|k' keys IH]; intros r; simpl.
  - rewrite app_nil_r. reflexivity.
  - rewrite IH, candidates_append_binding.
    rewrite filter_cons. simpl. rewrite <- app_assoc. f_equal.
    case_decide; reflexivity.
Qed.

(** Registering a shortcut and then binding keys to its name cannot fail:
    the name is registered by the time the first key is bound. *)
Ltac run_register :=
  intros; cbv beta zeta delta [bind register]; cbn [result final trace];
  repeat (rewrite addKeyMapping_registered
            by (cbn [shortcuts append_binding set_shortcut];
                rewrite lookup_insert_eq; eauto);
          cbn [result final trace]);
  reflexivity.

Lemma registerEscape_run r :
  registerEscape r
  = {| result := inr tt;
       final := install escapeAction escapeKeys r;
       trace := calls_of escapeAction escapeKeys |}.
Proof. unfold registerEscape. run_register. Qed.

Lemma registerDelete_run r :
  registerDelete r
  = {| result := inr tt;
       final := install deleteShortcut deleteKeys r;
       trace := calls_of deleteShortcut deleteKeys |}.
Proof. unfold registerDelete. run_register. Qed.

Lemma registerCopy_run r :
  registerCopy r
  = {| result := inr tt;
       final := install copyShortcut copyKeys r;
       trace := calls_of copyShortcut copyKeys |}.
Proof. unfold registerCopy. run_register. Qed.

Lemma registerCut_run r :
  registerCut r
  = {| result := inr tt;
       final := install cutShortcut cutKeys r;
       trace := calls_of cutShortcut cutKeys |}.
Proof. unfold registerCut. run_register. Qed.

Lemma registerPaste_run r :
  registerPaste r
  = {| result := inr tt;
       final := install pasteShortcut pasteKeys r;
       trace := calls_of pasteShortcut pasteKeys |}.
Proof. unfold registerPaste. run_register. Qed.

Lemma registerUndo_run r :
  registerUndo r
  = {| result := inr tt;
       final := install undoShortcut undoKeys r;
       trace := calls_of undoShortcut undoKeys |}.
Proof. unfold registerUndo. run_register. Qed.

Lemma registerRedo_run r :
  registerRedo r
  = {| result := inr tt;
       final := install redoShortcut redoKeys r;
       trace := calls_of redoShortcut redoKeys |}.
Proof. unfold registerRedo. run_register. Qed.

(** One run of the installer, from any registry: it returns, having made
    its calls in the order of the source. *)
Lemma registerDefaultShortcuts_run r :
  registerDefaultShortcuts r
  = {| result := inr tt; final := installDefaults r; trace := defaultCalls |}.
Proof.
  unfold registerDefaultShortcuts, installDefaults, defaultCalls.
  eapply bind_run; [apply registerEscape_run|].
  eapply bind_run; [apply registerDelete_run|].
  eapply bind_run; [apply registerCopy_run|].
  eapply bind_run; [apply registerCut_run|].
  eapply bind_run; [apply registerPaste_run|].
  eapply bind_run; [apply registerUndo_run|].
  apply registerRedo_run.
Qed.

Lemma registerDefaultShortcuts_result r :
  result (registerDefaultShortcuts r) = inr tt.
Proof. rewrite registerDefaultShortcuts_run. reflexivity. Qed.

Lemma registerDefaultShortcuts_trace r :
  trace (registerDefaultShortcuts r) = defaultCalls.
Proof. rewrite registerDefaultShortcuts_run. reflexivity. Qed.

Lemma shortcuts_install shortcut keys r :
  shortcuts (install shortcut keys r)
  = <[name shortcut := shortcut]> (shortcuts r).
Proof. unfold install. rewrite shortcuts_bind_keys. reflexivity. Qed.

Lemma candidates_install shortcut keys r k :
  candidates (install shortcut keys r) k
  = candidates r k
    ++ (filter (λ b, b.1 = k) ((λ k', (k', name shortcut)) <$> keys)).*2.
Proof.
  unfold install. rewrite candidates_bind_keys, candidates_set_shortcut.
  reflexivity.
Qed.

(** The seven definitions are in place, over whatever was registered. *)
Lemma registerDefaultShortcuts_shortcuts r :
  shortcuts (final (registerDefaultShortcuts r))
  = defaultShortcuts ∪ shortcuts r.
Proof.
  rewrite registerDefaultShortcuts_run. cbn [final]. unfold installDefaults.
  rewrite !shortcuts_install. unfold defaultShortcuts.
  rewrite <- !insert_union_l. by rewrite (left_id_L ∅ (∪)).
Qed.

(** Each key has the installer's names for it appended to its candidates. *)
Lemma registerDefaultShortcuts_candidates r k :
  candidates (final (registerDefaultShortcuts r)) k
  = candidates r k ++ boundNames k.
Proof.
  rewrite registerDefaultShortcuts_run. cbn [final]. unfold installDefaults.
  rewrite !candidates_install.
  unfold boundNames, defaultBindings.
  rewrite !filter_app, !fmap_app, <- !app_assoc. reflexivity.
Qed.

(** A name is among the names bound to a key exactly when the pair is one of
    the installer's bindings. *)
Lemma elem_of_boundNames n k :
  n ∈ boundNames k ↔ (k, n) ∈ defaultBindings.
Proof.
  unfold boundNames. rewrite list_elem_of_fmap. split.
  - intros ([k' n'] & -> & [Hk Hin]%list_elem_of_filter).
    simpl in Hk. by subst k'.
  - intros Hin. exists (k, n). split; [reflexivity|].
    apply list_elem_of_filter. done.
Qed.

(** The default definitions are found under their names. *)
Lemma defaultShortcuts_lookup :
  defaultShortcuts !! names.ESCAPE = Some escapeAction
  ∧ defaultShortcuts !! names.DELETE = Some deleteShortcut
  ∧ defaultShortcuts !! names.COPY = Some copyShortcut
  ∧ defaultShortcuts !! names.CUT = Some cutShortcut
  ∧ defaultShortcuts !! names.PASTE = Some pasteShortcut
  ∧ defaultShortcuts !! names.UNDO = Some undoShortcut
  ∧ defaultShortcuts !! names.REDO = Some redoShortcut.
Proof. repeat split; reflexivity. Qed.

(** Every name the installer binds is one of the seven defaults. *)
Lemma defaultBindings_registered k n :
  (k, n) ∈ defaultBindings → is_Some (defaultShortcuts !! n).
Proof.
  unfold defaultBindings, escapeKeys, deleteKeys, copyKeys, cutKeys,
    pasteKeys, undoKeys, redoKeys. simpl. intros Hin.
  repeat (apply elem_of_cons in Hin as [[= _ ->]|Hin]; [by eexists|]).
  by apply elem_of_nil in Hin.
Qed.

Lemma check_registered_before_sound seen calls :
  check_registered_before seen calls = true →
  ∀ before after k n,
    calls = before ++ CallAddKeyMapping k n :: after →
    CallRegister n ∈ before ∨ n ∈ seen.
Proof.
  revert seen. induction calls as [|c calls IH]; intros seen Hcheck.
  - intros [|? ?] ? ? ? [=].
  - intros [|c' before] after k n [= -> Hrest].
    + simpl in Hcheck. apply andb_prop in Hcheck as [Hn _].
      right. by apply bool_decide_eq_true in Hn.
    + destruct c' as [n'|k' n']; simpl in Hcheck.
      * destruct (IH _ Hcheck _ _ _ _ Hrest) as [Hin|Hin].
        -- left. by right.
        -- apply elem_of_cons in Hin as [->|Hin]; [left; by left|by right].
      * apply andb_prop in Hcheck as [_ Hcheck].
        destruct (IH _ Hcheck _ _ _ _ Hrest) as [Hin|Hin];
          [left; by right|by right].
Qed.

(** C9: from any registry the installer returns without raising; in the
    calls it makes, every addKeyMapping for a name comes after the register
    call for that name; every name it binds is registered in the registry it
    leaves, and a registry without dangling bindings stays so. *)
Theorem registerDefaultShortcuts_registers_first r :
  result (registerDefaultShortcuts r) = inr tt
  ∧ trace (registerDefaultShortcuts r) = defaultCalls
  ∧ registered_before_bound (trace (registerDefaultShortcuts r))
  ∧ (∀ k n,
       CallAddKeyMapping k n ∈ trace (registerDefaultShortcuts r) →
       n ∈ candidates (final (registerDefaultShortcuts r)) k
       ∧ is_Some (shortcuts (final (registerDefaultShortcuts r)) !! n))
  ∧ (bindings_closed r →
     bindings_closed (final (registerDefaultShortcuts r))).
Proof.
  split; [apply registerDefaultShortcuts_result|].
  split; [apply registerDefaultShortcuts_trace|].
  rewrite registerDefaultShortcuts_trace.
  assert (Hreg : ∀ k n, (k, n) ∈ defaultBindings →
            is_Some (shortcuts (final (registerDefaultShortcuts r)) !! n)).
  { intros k n [sc Hn]%defaultBindings_registered.
    rewrite registerDefaultShortcuts_shortcuts. exists sc.
    by apply lookup_union_Some_l. }
  split; [|split].
  - intros before after k n Hsplit.
    assert (check_registered_before [] defaultCalls = true) as Hcheck
      by reflexivity.
    destruct (check_registered_before_sound _ _ Hcheck _ _ _ _ Hsplit)
      as [Hin|Hin]; [exact Hin|by apply elem_of_nil in Hin].
  - intros k n Hcall.
    assert ((k, n) ∈ defaultBindings) as Hin.
    { revert Hcall.
      unfold defaultCalls, defaultBindings, calls_of, escapeKeys, deleteKeys,
        copyKeys, cutKeys, pasteKeys, undoKeys, redoKeys. simpl.
      intros Hcall.
      repeat (apply elem_of_cons in Hcall as [Hcall|Hcall];
              [first [discriminate Hcall
                     |injection Hcall as -> ->; set_solver]|]).
      by apply elem_of_nil in Hcall. }
    split; [|by eapply Hreg].
    rewrite registerDefaultShortcuts_candidates.
    apply elem_of_app. right. by apply elem_of_boundNames.
  - intros Hclosed k n.
    rewrite registerDefaultShortcuts_candidates, elem_of_app.
    rewrite registerDefaultShortcuts_shortcuts.
    intros [Hin|Hin%elem_of_boundNames].
    + destruct (Hclosed _ _ Hin) as [sc Hsc].
      destruct (defaultShortcuts !! n) as [sc'|] eqn:Hd.
      * exists sc'. by apply lookup_union_Some_l.
      * exists sc. by rewrite lookup_union_r.
    + destruct (defaultBindings_registered _ _ Hin) as [sc Hsc].
      exists sc. by apply lookup_union_Some_l.
Qed.

End Installer.

(* ===================================================================== *)
(** ** The default shortcuts *)

Section DefaultShortcuts.
Context {kc : KeyCodes.t}.
Implicit Types (r : ShortcutRegistry) (w : World) (k : string).

Lemma installed_shortcuts : shortcuts installed = defaultShortcuts.
Proof.
  unfold installed. rewrite registerDefaultShortcuts_shortcuts.
  apply (right_id_L ∅ (∪)).
Qed.

Lemma installed_candidates k : candidates installed k = boundNames k.
Proof. unfold installed. by rewrite registerDefaultShortcuts_candidates. Qed.

(** The installer's bindings, shortcut by shortcut. *)
Lemma elem_of_defaultBindings k n :
  (k, n) ∈ defaultBindings ↔
    (n = names.ESCAPE ∧ k ∈ escapeKeys)
    ∨ (n = names.DELETE ∧ k ∈ deleteKeys)
    ∨ (n = names.COPY ∧ k ∈ copyKeys)
    ∨ (n = names.CUT ∧ k ∈ cutKeys)
    ∨ (n = names.PASTE ∧ k ∈ pasteKeys)
    ∨ (n = names.UNDO ∧ k ∈ undoKeys)
    ∨ (n = names.REDO ∧ k ∈ redoKeys).
Proof.
  unfold defaultBindings. rewrite !elem_of_app, !list_elem_of_fmap.
  naive_solver.
Qed.

(** Equal serialized keys, modifier by modifier. *)
Lemma createSerializedKey_eq_inv (k1 k2 : N) (M1 M2 : list N) :
  createSerializedKey k1 M1 = createSerializedKey k2 M2 →
  k1 = k2
  ∧ (KeyCodes.CTRL ∈ M1 ↔ KeyCodes.CTRL ∈ M2)
  ∧ (KeyCodes.ALT ∈ M1 ↔ KeyCodes.ALT ∈ M2)
  ∧ (KeyCodes.SHIFT ∈ M1 ↔ KeyCodes.SHIFT ∈ M2)
  ∧ (KeyCodes.META ∈ M1 ↔ KeyCodes.META ∈ M2).
Proof.
  intros [-> HM]%createSerializedKey_inj.
  split; [reflexivity|].
  repeat split; apply HM; unfold modifierKeys; simpl; set_solver.
Qed.

Lemma distinct_inv :
  KeyCodes.distinct kc →
  (KeyCodes.C ≠ KeyCodes.X ∧ KeyCodes.C ≠ KeyCodes.V
   ∧ KeyCodes.C ≠ KeyCodes.Z ∧ KeyCodes.C ≠ KeyCodes.Y
   ∧ KeyCodes.X ≠ KeyCodes.V ∧ KeyCodes.X ≠ KeyCodes.Z
   ∧ KeyCodes.X ≠ KeyCodes.Y ∧ KeyCodes.V ≠ KeyCodes.Z
   ∧ KeyCodes.V ≠ KeyCodes.Y ∧ KeyCodes.Z ≠ KeyCodes.Y)
  ∧ (KeyCodes.SHIFT ≠ KeyCodes.CTRL ∧ KeyCodes.SHIFT ≠ KeyCodes.ALT
     ∧ KeyCodes.SHIFT ≠ KeyCodes.META ∧ KeyCodes.CTRL ≠ KeyCodes.ALT
     ∧ KeyCodes.CTRL ≠ KeyCodes.META ∧ KeyCodes.ALT ≠ KeyCodes.META).
Proof.
  intros [Hk Hm].
  repeat match goal with
    | H : NoDup (_ :: _) |- _ => apply NoDup_cons in H as [? ?]
    | H : _ ∉ _ :: _ |- _ => apply not_elem_of_cons in H as [? ?]
    end.
  tauto.
Qed.


(** What each precondition asks of the editor. *)
Lemma escape_eligible workspace w :
  eligible escapeAction workspace w = true
  ↔ readOnly (options workspace) = false.
Proof.
  unfold eligible, escapeAction; cbn.
  destruct (readOnly (options workspace)); cbn; naive_solver.
Qed.

Lemma delete_eligible workspace w :
  eligible deleteShortcut workspace w = true
  ↔ readOnly (options workspace) = false
    ∧ ∃ item, selected w = Some item ∧ ICopyable.isDeletable item = true.
Proof.
  unfold eligible, deleteShortcut, selected_and, js_and; cbn.
  destruct (readOnly (options workspace)), (selected w) as [item|]; cbn;
    naive_solver.
Qed.

Lemma copy_eligible workspace w :
  eligible copyShortcut workspace w = true
  ↔ readOnly (options workspace) = false
    ∧ Gesture_inProgress w = false
    ∧ ∃ item, selected w = Some item
        ∧ ICopyable.isDeletable item = true
        ∧ ICopyable.isMovable item = true.
Proof.
  unfold eligible, copyShortcut, selected_and, js_and; cbn.
  destruct (readOnly (options workspace)), (Gesture_inProgress w),
    (selected w) as [[[] [] ?]|]; cbn; naive_solver.
Qed.

Lemma cut_eligible workspace w :
  eligible cutShortcut workspace w = true
  ↔ readOnly (options workspace) = false
    ∧ Gesture_inProgress w = false
    ∧ ∃ item, selected w = Some item
        ∧ ICopyable.isDeletable item = true
        ∧ ICopyable.isMovable item = true
        ∧ isFlyout (ICopyable.workspace item) = false.
Proof.
  unfold eligible, cutShortcut, selected_and, js_and; cbn.
  destruct (readOnly (options workspace)), (Gesture_inProgress w),
    (selected w) as [[[] [] [? []]]|]; cbn; naive_solver.
Qed.

Lemma paste_eligible workspace w :
  eligible pasteShortcut workspace w = true
  ↔ readOnly (options workspace) = false ∧ Gesture_inProgress w = false.
Proof.
  unfold eligible, pasteShortcut, js_and; cbn.
  destruct (readOnly (options workspace)), (Gesture_inProgress w); cbn;
    naive_solver.
Qed.

Lemma undo_eligible workspace w :
  eligible undoShortcut workspace w = true
  ↔ readOnly (options workspace) = false ∧ Gesture_inProgress w = false.
Proof.
  unfold eligible, undoShortcut, js_and; cbn.
  destruct (readOnly (options workspace)), (Gesture_inProgress w); cbn;
    naive_solver.
Qed.

Lemma redo_eligible workspace w :
  eligible redoShortcut workspace w = true
  ↔ readOnly (options workspace) = false ∧ Gesture_inProgress w = false.
Proof.
  unfold eligible, redoShortcut, js_and; cbn.
  destruct (readOnly (options workspace)), (Gesture_inProgress w); cbn;
    naive_solver.
Qed.


(** Under distinct key codes, two of the installer's keys are equal only if
    they are written alike. *)
Ltac key_eq :=
  cbn [fst];
  lazymatch goal with |- ?a = ?b => constr_eq a b; reflexivity end.

Ltac modifier_contra H :=
  let H' := fresh in
  first [ assert (H' := proj1 H ltac:(auto)) | assert (H' := proj2 H ltac:(auto)) ];
  decompose [or] H'; congruence.

Ltac key_ne :=
  let Heq := fresh "Heq" in
  let Hk := fresh "Hk" in
  let Hc := fresh "Hc" in
  let Ha := fresh "Ha" in
  let Hs := fresh "Hs" in
  let Hm := fresh "Hm" in
  intros Heq; cbn [fst] in Heq;
  rewrite <- ?createSerializedKey_bare in Heq;
  apply createSerializedKey_eq_inv in Heq as (Hk & Hc & Ha & Hs & Hm);
  rewrite ?elem_of_cons, ?elem_of_nil in Hc, Ha, Hs, Hm;
  first [ congruence | modifier_contra Hc | modifier_contra Ha
        | modifier_contra Hs | modifier_contra Hm ].

Ltac bound_names Hd :=
  destruct Hd as ((?&?&?&?&?&?&?&?&?&?)&(?&?&?&?&?&?));
  unfold boundNames, defaultBindings, escapeKeys, deleteKeys, copyKeys,
    cutKeys, pasteKeys, undoKeys, redoKeys;
  cbn [fmap list_fmap app];
  repeat first
    [ rewrite filter_cons_True by key_eq
    | rewrite filter_cons_False by key_ne ];
  rewrite filter_nil; reflexivity.

Lemma same_set_swap {A : Type} (a b : A) : same_set [a; b] [b; a].
Proof. intros x. rewrite !elem_of_cons. tauto. Qed.

(** Dispatching a key that has one candidate. *)
Lemma resolve_single_handled r k n shortcut workspace event w w' :
  candidates r k = [n] →
  shortcuts r !! n = Some shortcut →
  eligible shortcut workspace w = true →
  callback shortcut workspace event w = (true, w') →
  resolve r k workspace event w = (Handled n, w').
Proof.
  intros Hk Hn Hel Hcb. unfold resolve. rewrite Hk.
  by apply resolve_candidates_stop with shortcut.
Qed.

Lemma resolve_single_ineligible r k n shortcut workspace event w :
  candidates r k = [n] →
  shortcuts r !! n = Some shortcut →
  eligible shortcut workspace w = false →
  resolve r k workspace event w = (Unhandled, w).
Proof.
  intros Hk Hn Hel. unfold resolve. rewrite Hk. cbn. by rewrite Hn, Hel.
Qed.

Lemma installed_lookup :
  shortcuts installed !! names.ESCAPE = Some escapeAction
  ∧ shortcuts installed !! names.DELETE = Some deleteShortcut
  ∧ shortcuts installed !! names.COPY = Some copyShortcut
  ∧ shortcuts installed !! names.CUT = Some cutShortcut
  ∧ shortcuts installed !! names.PASTE = Some pasteShortcut
  ∧ shortcuts installed !! names.UNDO = Some undoShortcut
  ∧ shortcuts installed !! names.REDO = Some redoShortcut.
Proof. rewrite installed_shortcuts. apply defaultShortcuts_lookup. Qed.

(** The keys a default name is bound to after the installer has run. *)
Lemma installed_bound_keys n key :
  n ∈ candidates installed key ↔ (key, n) ∈ defaultBindings.
Proof. rewrite installed_candidates. apply elem_of_boundNames. Qed.

(** C5: after installing the defaults, the shortcut registered as "copy" is
    the copy shortcut; its precondition holds exactly when the workspace is
    not read-only, no gesture is in progress and the selected item exists
    and is both deletable and movable; and with a selected item that is
    deletable but not movable, dispatching ctrl+C is unhandled and nothing
    is called. *)
Theorem copy_requires_movable_selection :
  KeyCodes.distinct kc →
  shortcuts installed !! names.COPY = Some copyShortcut
  ∧ (∀ workspace w,
       eligible copyShortcut workspace w = true
       ↔ readOnly (options workspace) = false
         ∧ Gesture_inProgress w = false
         ∧ ∃ item, selected w = Some item
             ∧ ICopyable.isDeletable item = true
             ∧ ICopyable.isMovable item = true)
  ∧ (∀ workspace event w item,
       selected w = Some item →
       ICopyable.isDeletable item = true →
       ICopyable.isMovable item = false →
       resolve installed (createSerializedKey KeyCodes.C [KeyCodes.CTRL])
         workspace event w
       = (Unhandled, w)).
Proof.
  intros Hd%distinct_inv.
  destruct installed_lookup as (_ & _ & Hcopy & _).
  split; [exact Hcopy|]. split; [exact copy_eligible|].
  intros workspace event w item Hsel Hdel Hmov.
  apply resolve_single_ineligible with names.COPY copyShortcut.
  - rewrite installed_candidates. bound_names Hd.
  - exact Hcopy.
  - destruct (eligible copyShortcut workspace w) eqn:Hel; [|reflexivity].
    apply copy_eligible in Hel as (_ & _ & item' & Hsel' & _ & Hmov').
    congruence.
Qed.

(** C6: the shortcut registered as "delete" is bound to Delete and to
    Backspace, and to no other key; its precondition holds exactly when the
    workspace is not read-only and a deletable item is selected; its
    callback first calls preventDefault on the event, then, with a gesture
    in progress, returns false without another call, and otherwise deletes
    the selected item and returns true. *)
Theorem delete_shortcut_contract :
  shortcuts installed !! names.DELETE = Some deleteShortcut
  ∧ (∀ key,
       names.DELETE ∈ candidates installed key
       ↔ key = pretty KeyCodes.DELETE ∨ key = pretty KeyCodes.BACKSPACE)
  ∧ (∀ workspace w,
       eligible deleteShortcut workspace w = true
       ↔ readOnly (options workspace) = false
         ∧ ∃ item, selected w = Some item
             ∧ ICopyable.isDeletable item = true)
  ∧ (∀ workspace event w,
       callback deleteShortcut workspace event w
       = if Gesture_inProgress w
         then (false, preventDefault event w)
         else (true, deleteBlock (selected w) (preventDefault event w)))
  ∧ (∀ event w,
       effects (preventDefault event w)
       = effects w ++ [PreventDefault event]
       ∧ effects (deleteBlock (selected w) (preventDefault event w))
         = effects w ++ [PreventDefault event; DeleteBlock (selected w)]).
Proof.
  destruct installed_lookup as (_ & Hdelete & _).
  split; [exact Hdelete|]. split; [|split; [exact delete_eligible|split]].
  - intros key. rewrite installed_bound_keys, elem_of_defaultBindings.
    unfold deleteKeys. rewrite !elem_of_cons, elem_of_nil. split.
    + intros [[[=] _]|[[_ H]|[[[=] _]|[[[=] _]|[[[=] _]|[[[=] _]|[[=] _]]]]]]].
      destruct H as [H|[H|[]]]; auto.
    + intros H. right. left. split; [reflexivity|].
      destruct H as [H|H]; auto.
  - intros workspace event w. reflexivity.
  - intros event w. split; [reflexivity|].
    unfold deleteBlock, preventDefault, perform; cbn [effects].
    rewrite <- app_assoc. reflexivity.
Qed.

(** C8: the shortcut registered as "cut" is bound to ctrl+X, alt+X and
    meta+X, and to no other key; its precondition holds exactly when the
    workspace is not read-only, no gesture is in progress and the selected
    item exists, is deletable, is movable and is not in a flyout; its
    callback copies the selection to the clipboard, then deletes it, and
    returns true. *)
Theorem cut_shortcut_contract :
  shortcuts installed !! names.CUT = Some cutShortcut
  ∧ (∀ key,
       names.CUT ∈ candidates installed key
       ↔ key = createSerializedKey KeyCodes.X [KeyCodes.CTRL]
         ∨ key = createSerializedKey KeyCodes.X [KeyCodes.ALT]
         ∨ key = createSerializedKey KeyCodes.X [KeyCodes.META])
  ∧ (∀ workspace w,
       eligible cutShortcut workspace w = true
       ↔ readOnly (options workspace) = false
         ∧ Gesture_inProgress w = false
         ∧ ∃ item, selected w = Some item
             ∧ ICopyable.isDeletable item = true
             ∧ ICopyable.isMovable item = true
             ∧ isFlyout (ICopyable.workspace item) = false)
  ∧ (∀ workspace event w,
       callback cutShortcut workspace event w
       = (true, deleteBlock (selected w) (clipboard_copy (selected w) w))
       ∧ effects (deleteBlock (selected w) (clipboard_copy (selected w) w))
         = effects w ++ [ClipboardCopy (selected w); DeleteBlock (selected w)]).
Proof.
  destruct installed_lookup as (_ & _ & _ & Hcut & _).
  split; [exact Hcut|]. split; [|split; [exact cut_eligible|]].
  - intros key. rewrite installed_bound_keys, elem_of_defaultBindings.
    unfold cutKeys. rewrite !elem_of_cons, elem_of_nil. split.
    + intros [[[=] _]|[[[=] _]|[[[=] _]|[[_ H]|[[[=] _]|[[[=] _]|[[=] _]]]]]]].
      destruct H as [H|[H|[H|[]]]]; auto.
    + intros H. do 3 right. left. split; [reflexivity|].
      destruct H as [H|[H|H]]; auto.
  - intros workspace event w. split; [reflexivity|].
    unfold deleteBlock, clipboard_copy, perform; cbn [effects].
    rewrite <- app_assoc. reflexivity.
Qed.


(** C7: after installing the defaults, on a workspace that is not
    read-only and with no gesture in progress, ctrl+Z, alt+Z and meta+Z
    each resolve to the shortcut named "undo", whose callback dismisses the
    transient UI, calls the history with redo = false and returns true;
    ctrl+shift+Z, alt+shift+Z, meta+shift+Z and ctrl+Y each resolve to the
    shortcut named "redo", whose callback does the same with redo = true. *)
Theorem undo_redo_dispatch workspace event w :
  KeyCodes.distinct kc →
  readOnly (options workspace) = false →
  Gesture_inProgress w = false →
  (∀ key,
     key ∈ [createSerializedKey KeyCodes.Z [KeyCodes.CTRL];
            createSerializedKey KeyCodes.Z [KeyCodes.ALT];
            createSerializedKey KeyCodes.Z [KeyCodes.META]] →
     resolve installed key workspace event w
     = (Handled names.UNDO, undo workspace false (hideChaff w)))
  ∧ (∀ key,
       key ∈ [createSerializedKey KeyCodes.Z [KeyCodes.CTRL; KeyCodes.SHIFT];
              createSerializedKey KeyCodes.Z [KeyCodes.ALT; KeyCodes.SHIFT];
              createSerializedKey KeyCodes.Z [KeyCodes.META; KeyCodes.SHIFT];
              createSerializedKey KeyCodes.Y [KeyCodes.CTRL]] →
       resolve installed key workspace event w
       = (Handled names.REDO, undo workspace true (hideChaff w)))
  ∧ shortcuts installed !! names.UNDO = Some undoShortcut
  ∧ shortcuts installed !! names.REDO = Some redoShortcut
  ∧ callback undoShortcut workspace event w
    = (true, undo workspace false (hideChaff w))
  ∧ callback redoShortcut workspace event w
    = (true, undo workspace true (hideChaff w))
  ∧ effects (undo workspace false (hideChaff w))
    = effects w ++ [HideChaff; Undo workspace false]
  ∧ effects (undo workspace true (hideChaff w))
    = effects w ++ [HideChaff; Undo workspace true].
Proof.
  intros Hd%distinct_inv Hro Hg.
  destruct installed_lookup as (_ & _ & _ & _ & _ & Hundo & Hredo).
  assert (eligible undoShortcut workspace w = true) as Helu
    by (apply undo_eligible; split; assumption).
  assert (eligible redoShortcut workspace w = true) as Helr
    by (apply redo_eligible; split; assumption).
  split; [|split].
  - intros key Hkey.
    apply resolve_single_handled with undoShortcut;
      [|exact Hundo|exact Helu|reflexivity].
    rewrite installed_candidates.
    repeat (apply elem_of_cons in Hkey as [->|Hkey]; [bound_names Hd|]).
    apply elem_of_nil in Hkey. destruct Hkey.
  - intros key Hkey.
    apply resolve_single_handled with redoShortcut;
      [|exact Hredo|exact Helr|reflexivity].
    rewrite installed_candidates.
    rewrite (createSerializedKey_same_set KeyCodes.Z
               [KeyCodes.CTRL; KeyCodes.SHIFT] [KeyCodes.SHIFT; KeyCodes.CTRL])
      in Hkey by apply same_set_swap.
    rewrite (createSerializedKey_same_set KeyCodes.Z
               [KeyCodes.ALT; KeyCodes.SHIFT] [KeyCodes.SHIFT; KeyCodes.ALT])
      in Hkey by apply same_set_swap.
    rewrite (createSerializedKey_same_set KeyCodes.Z
               [KeyCodes.META; KeyCodes.SHIFT] [KeyCodes.SHIFT; KeyCodes.META])
      in Hkey by apply same_set_swap.
    repeat (apply elem_of_cons in Hkey as [->|Hkey]; [bound_names Hd|]).
    apply elem_of_nil in Hkey. destruct Hkey.
  - split; [exact Hundo|]. split; [exact Hredo|].
    split; [reflexivity|]. split; [reflexivity|].
    unfold undo, hideChaff, perform; cbn [effects].
    rewrite <- !app_assoc. split; reflexivity.
Qed.

(** C10: whatever the workspace, the event and the editor state, the
    callbacks of escape, copy, cut, undo and redo return true; the delete
    callback returns false exactly when a gesture is in progress; the paste
    callback returns what the clipboard's paste reports.  So in any registry
    in which a name stands for one of the five, once the candidates in front
    of it have fallen through and its precondition holds, the dispatch stops
    at it and reports it as the handler. *)
Theorem consuming_callbacks :
  (∀ shortcut workspace event w,
     shortcut ∈ [escapeAction; copyShortcut; cutShortcut; undoShortcut;
                 redoShortcut] →
     (callback shortcut workspace event w).1 = true)
  ∧ (∀ workspace event w,
       (callback deleteShortcut workspace event w).1
       = negb (Gesture_inProgress w))
  ∧ (∀ workspace event w,
       (callback pasteShortcut workspace event w).1
       = clipboard_paste_result w)
  ∧ (∀ registered n shortcut before after workspace event w w1,
       shortcut ∈ [escapeAction; copyShortcut; cutShortcut; undoShortcut;
                   redoShortcut] →
       registered !! n = Some shortcut →
       FallsThrough registered workspace event before w w1 →
       eligible shortcut workspace w1 = true →
       resolve_candidates registered (before ++ n :: after)
         workspace event w
       = (Handled n, (callback shortcut workspace event w1).2)).
Proof.
  assert (Htrue : ∀ shortcut workspace event w,
     shortcut ∈ [escapeAction; copyShortcut; cutShortcut; undoShortcut;
                 redoShortcut] →
     (callback shortcut workspace event w).1 = true).
  { intros shortcut workspace event w Hin.
    repeat (apply elem_of_cons in Hin as [->|Hin]; [reflexivity|]).
    by apply elem_of_nil in Hin. }
  split; [exact Htrue|]. split; [|split].
  - intros workspace event w. cbn [callback deleteShortcut].
    unfold preventDefault, perform; cbn [Gesture_inProgress].
    by destruct (Gesture_inProgress w).
  - reflexivity.
  - intros registered n shortcut before after workspace event w w1
      Hin Hn Hft Hel.
    rewrite (resolve_candidates_skip _ _ _ _ _ _ _ Hft).
    apply resolve_candidates_stop with shortcut; [exact Hn|exact Hel|].
    specialize (Htrue shortcut workspace event w1 Hin).
    destruct (callback shortcut workspace event w1) as [b w2].
    cbn in Htrue |- *. by subst b.
Qed.

End DefaultShortcuts.

(* ===================================================================== *)
(** ** Runs on concrete input *)

(** C5 with the key codes browsers report: ctrl+C on a block that can be
    deleted but not moved. *)
Lemma copy_requires_movable_selection_witness :
  KeyCodes.distinct KeyCodes.dom
  ∧ resolve (installed (kc := KeyCodes.dom)) "Control+67"
      sample_workspace sample_event sample_world
    = (Unhandled, sample_world).
Proof.
  assert (Hd : KeyCodes.distinct KeyCodes.dom)
    by (split; apply (bool_decide_unpack _); vm_compute; exact I).
  split; [exact Hd|].
  destruct (copy_requires_movable_selection (kc := KeyCodes.dom) Hd)
    as (_ & _ & Hunhandled).
  exact (Hunhandled sample_workspace sample_event sample_world sample_block
           eq_refl eq_refl eq_refl).
Defined.

(** C7 with the key codes browsers report: ctrl+Z and ctrl+shift+Z on a
    writable workspace with no gesture in progress. *)
Lemma undo_redo_dispatch_witness :
  KeyCodes.distinct KeyCodes.dom
  ∧ readOnly (options sample_workspace) = false
  ∧ Gesture_inProgress sample_world = false
  ∧ resolve (installed (kc := KeyCodes.dom)) "Control+90"
      sample_workspace sample_event sample_world
    = (Handled "undo", undo sample_workspace false (hideChaff sample_world))
  ∧ resolve (installed (kc := KeyCodes.dom)) "Control+Shift+90"
      sample_workspace sample_event sample_world
    = (Handled "redo", undo sample_workspace true (hideChaff sample_world)).
Proof.
  assert (Hd : KeyCodes.distinct KeyCodes.dom)
    by (split; apply (bool_decide_unpack _); vm_compute; exact I).
  split; [exact Hd|]. split; [reflexivity|]. split; [reflexivity|].
  destruct (undo_redo_dispatch (kc := KeyCodes.dom)
              sample_workspace sample_event sample_world Hd eq_refl eq_refl)
    as (Hundo & Hredo & _).
  split.
  - apply (Hundo "Control+90"). apply list_elem_of_here.
  - apply (Hredo "Control+Shift+90"). apply list_elem_of_here.
Defined.

(** The serialized form of ctrl+shift+Z, and of the bare Escape key. *)
Example createSerializedKey_ctrl_shift_Z :
  createSerializedKey (kc := KeyCodes.dom) 90 [16; 17]%N = "Control+Shift+90"
  ∧ createSerializedKey (kc := KeyCodes.dom) 90 [17; 16]%N
    = "Control+Shift+90"
  ∧ createSerializedKey (kc := KeyCodes.dom) 27 [] = "27".
Proof. vm_compute. repeat split; reflexivity. Qed.

(** Two shortcuts on one key: when the precondition of the first fails, the
    second one, bound later, handles the event. *)
Example resolve_skips_ineligible :
  let r := final ((register deleteShortcut ;;
                   register fallback_shortcut ;;
                   addKeyMapping "46" "delete" ;;
                   addKeyMapping "46" "fallback") empty_registry) in
  candidates r "46" = ["delete"; "fallback"]
  ∧ resolve r "46" sample_workspace sample_event
      {| selected := None; Gesture_inProgress := false;
         clipboard_paste_result := true; effects := [] |}
    = (Handled "fallback",
       {| selected := None; Gesture_inProgress := false;
          clipboard_paste_result := true; effects := [HideChaff] |}).
Proof. vm_compute. split; reflexivity. Qed.

(** When the first is eligible but its callback returns false (delete
    during a drag), the second one is tried next, in the world the first
    one left. *)
Example resolve_continues_after_declined :
  let r := final ((register deleteShortcut ;;
                   register fallback_shortcut ;;
                   addKeyMapping "46" "delete" ;;
                   addKeyMapping "46" "fallback") empty_registry) in
  resolve r "46" sample_workspace sample_event dragging_world
  = (Handled "fallback",
     {| selected := Some sample_block; Gesture_inProgress := true;
        clipboard_paste_result := true;
        effects := [PreventDefault sample_event; HideChaff] |}).
Proof. vm_compute. reflexivity. Qed.

(** Bound the other way round, the fallback is tried first and the delete
    shortcut is never reached. *)
Example resolve_first_bound_first_tried :
  let r := final ((register deleteShortcut ;;
                   register fallback_shortcut ;;
                   addKeyMapping "46" "fallback" ;;
                   addKeyMapping "46" "delete") empty_registry) in
  resolve r "46" sample_workspace sample_event sample_world
  = (Handled "fallback",
     {| selected := Some sample_block; Gesture_inProgress := false;
        clipboard_paste_result := true; effects := [HideChaff] |}).
Proof. vm_compute. reflexivity. Qed.

(** Escape on a read-only workspace is unhandled; on a writable one it
    dismisses the transient UI and is handled. *)
Example escape_dispatch :
  resolve (installed (kc := KeyCodes.dom)) "27"
    {| options := {| readOnly := true |}; isFlyout := false |}
    sample_event sample_world
  = (Unhandled, sample_world)
  ∧ resolve (installed (kc := KeyCodes.dom)) "27"
      sample_workspace sample_event sample_world
    = (Handled "escape", hideChaff sample_world).
Proof. vm_compute. split; reflexivity. Qed.

(* ===================================================================== *)
(** ** The rest of the module: the other shortcuts and the dispatch of the
    installed registry *)

Ltac pick_case :=
  first [ split; reflexivity | left; split; reflexivity | right; pick_case ].

Ltac pick_reachable :=
  first [ left; split; [reflexivity|left; reflexivity]
        | split; [reflexivity|left; reflexivity]
        | right; pick_reachable ].

Ltac same_key :=
  cbn [fst];
  lazymatch goal with |- ?a = ?b => constr_eq a b; reflexivity end.

Ltac modifiers_differ H :=
  let H' := fresh in
  first [ assert (H' := proj1 H ltac:(auto))
        | assert (H' := proj2 H ltac:(auto)) ];
  decompose [or] H'; congruence.

(** Two of the installer's keys that are written differently are different,
    given the inequalities between key codes in the context. *)
Ltac other_key :=
  let Heq := fresh "Heq" in
  let Hk := fresh "Hk" in
  let Hc := fresh "Hc" in
  let Ha := fresh "Ha" in
  let Hs := fresh "Hs" in
  let Hm := fresh "Hm" in
  intros Heq; cbn [fst] in Heq;
  rewrite <- ?createSerializedKey_bare in Heq;
  apply createSerializedKey_eq_inv in Heq as (Hk & Hc & Ha & Hs & Hm);
  rewrite ?elem_of_cons, ?elem_of_nil in Hc, Ha, Hs, Hm;
  first [ congruence | modifiers_differ Hc | modifiers_differ Ha
        | modifiers_differ Hs | modifiers_differ Hm ].

Ltac names_of_key :=
  unfold boundNames, defaultBindings, escapeKeys, deleteKeys, copyKeys,
    cutKeys, pasteKeys, undoKeys, redoKeys;
  cbn [fmap list_fmap app];
  repeat first
    [ rewrite filter_cons_True by same_key
    | rewrite filter_cons_False by other_key ];
  rewrite filter_nil; reflexivity.

Section Dispatch.
Context {kc : KeyCodes.t}.
Implicit Types (r : ShortcutRegistry) (w : World) (key : string).

(** The definitions registered by the installer, one by one. *)
Lemma defaultShortcuts_inv n shortcut :
  defaultShortcuts !! n = Some shortcut →
  (n = names.ESCAPE ∧ shortcut = escapeAction)
  ∨ (n = names.DELETE ∧ shortcut = deleteShortcut)
  ∨ (n = names.COPY ∧ shortcut = copyShortcut)
  ∨ (n = names.CUT ∧ shortcut = cutShortcut)
  ∨ (n = names.PASTE ∧ shortcut = pasteShortcut)
  ∨ (n = names.UNDO ∧ shortcut = undoShortcut)
  ∨ (n = names.REDO ∧ shortcut = redoShortcut).
Proof.
  unfold defaultShortcuts. intros H.
  repeat (rewrite lookup_insert in H; case_decide;
          [subst n; injection H as <-; pick_case|]).
  rewrite lookup_empty in H. discriminate H.
Qed.

(** Candidates that are all ineligible leave the event unhandled and the
    editor untouched. *)
Lemma resolve_candidates_all_ineligible registered names workspace event w :
  (∀ n shortcut, registered !! n = Some shortcut →
                 eligible shortcut workspace w = false) →
  resolve_candidates registered names workspace event w = (Unhandled, w).
Proof.
  intros Hall. induction names as [|n rest IH]; [reflexivity|].
  cbn [resolve_candidates].
  destruct (registered !! n) as [shortcut|] eqn:Hn; [|exact IH].
  rewrite (Hall _ _ Hn). exact IH.
Qed.

(** Every default precondition asks for a workspace that is not
    read-only. *)
Lemma default_eligible_writable n shortcut workspace w :
  defaultShortcuts !! n = Some shortcut →
  eligible shortcut workspace w = true →
  readOnly (options workspace) = false.
Proof.
  intros Hn Hel. apply defaultShortcuts_inv in Hn.
  destruct Hn as [[_ ->]|[[_ ->]|[[_ ->]|[[_ ->]|[[_ ->]|[[_ ->]|[_ ->]]]]]]].
  - by apply escape_eligible in Hel.
  - by apply delete_eligible in Hel as [? _].
  - by apply copy_eligible in Hel as [? _].
  - by apply cut_eligible in Hel as [? _].
  - by apply paste_eligible in Hel as [? _].
  - by apply undo_eligible in Hel as [? _].
  - by apply redo_eligible in Hel as [? _].
Qed.

(** X1: on a read-only workspace no default shortcut runs: whatever the key,
    the event and the editor state, the dispatch is unhandled and no
    collaborator is called. *)
Theorem read_only_workspace_unhandled workspace event w key :
  readOnly (options workspace) = true →
  resolve installed key workspace event w = (Unhandled, w).
Proof.
  intros Hro. unfold resolve. rewrite installed_shortcuts.
  apply resolve_candidates_all_ineligible. intros n shortcut Hn.
  destruct (eligible shortcut workspace w) eqn:Hel; [|reflexivity].
  pose proof (default_eligible_writable _ _ _ _ Hn Hel) as Hw.
  rewrite Hro in Hw. discriminate Hw.
Qed.

(** With a gesture in progress only escape and delete can be eligible, and
    the delete callback declines. *)
Lemma gesture_step n shortcut workspace event w :
  defaultShortcuts !! n = Some shortcut →
  Gesture_inProgress w = true →
  eligible shortcut workspace w = true →
  (n = names.ESCAPE ∧ callback shortcut workspace event w = (true, hideChaff w))
  ∨ callback shortcut workspace event w = (false, preventDefault event w).
Proof.
  intros Hn Hg Hel. apply defaultShortcuts_inv in Hn.
  destruct Hn as [[-> ->]|[[_ ->]|[[_ ->]|[[_ ->]|[[_ ->]|[[_ ->]|[_ ->]]]]]]].
  - left. split; reflexivity.
  - right. cbn [callback deleteShortcut].
    unfold preventDefault at 1, perform; cbn [Gesture_inProgress].
    rewrite Hg. reflexivity.
  - apply copy_eligible in Hel as (_ & Hg' & _). congruence.
  - apply cut_eligible in Hel as (_ & Hg' & _). congruence.
  - apply paste_eligible in Hel as (_ & Hg'). congruence.
  - apply undo_eligible in Hel as (_ & Hg'). congruence.
  - apply redo_eligible in Hel as (_ & Hg'). congruence.
Qed.

Lemma gesture_resolve_candidates names workspace event w :
  Gesture_inProgress w = true →
  ∃ added,
    effects (resolve_candidates defaultShortcuts names workspace event w).2
    = effects w ++ added
    ∧ Forall harmless added
    ∧ ((resolve_candidates defaultShortcuts names workspace event w).1
       = Unhandled
       ∨ (resolve_candidates defaultShortcuts names workspace event w).1
         = Handled names.ESCAPE).
Proof.
  revert w. induction names as [|n rest IH]; intros w Hg.
  - exists []. cbn [resolve_candidates snd fst]. rewrite app_nil_r.
    split; [reflexivity|]. split; [constructor|]. left. reflexivity.
  - cbn [resolve_candidates].
    destruct (defaultShortcuts !! n) as [shortcut|] eqn:Hn; [|exact (IH w Hg)].
    destruct (eligible shortcut workspace w) eqn:Hel; [|exact (IH w Hg)].
    destruct (gesture_step _ _ workspace event _ Hn Hg Hel)
      as [[-> Hcb]|Hcb]; rewrite Hcb.
    + exists [HideChaff]. cbn [snd fst]. split; [reflexivity|].
      split; [|right; reflexivity].
      constructor; [left; reflexivity|constructor].
    + destruct (IH (preventDefault event w) Hg) as (added & Heff & Hh & Hres).
      exists (PreventDefault event :: added). split; [|split].
      * rewrite Heff. unfold preventDefault, perform; cbn [effects].
        rewrite <- app_assoc. reflexivity.
      * constructor; [right; eexists; reflexivity|exact Hh].
      * exact Hres.
Qed.

(** X2: while a gesture is in progress no default shortcut edits anything:
    whatever the key, the dispatch only dismisses the transient UI or
    prevents the browser's default action (no deletion, copy, paste, undo
    or redo is called), and the event is either unhandled or handled by
    escape. *)
Theorem gesture_in_progress_edits_nothing workspace event w key :
  Gesture_inProgress w = true →
  ∃ added,
    effects (resolve installed key workspace event w).2 = effects w ++ added
    ∧ Forall harmless added
    ∧ ((resolve installed key workspace event w).1 = Unhandled
       ∨ (resolve installed key workspace event w).1 = Handled names.ESCAPE).
Proof.
  intros Hg. unfold resolve. rewrite installed_shortcuts.
  apply gesture_resolve_candidates. exact Hg.
Qed.

(** X3: the shortcut registered as "escape" is bound to the Escape key and to
    no other key; its precondition only asks that the workspace is not
    read-only, whatever is selected and whether or not a gesture is in
    progress; its callback dismisses the transient UI, calls nothing else
    and returns true. *)
Theorem escape_shortcut_contract :
  shortcuts installed !! names.ESCAPE = Some escapeAction
  ∧ (∀ key, names.ESCAPE ∈ candidates installed key
            ↔ key = pretty KeyCodes.ESC)
  ∧ (∀ workspace w,
       eligible escapeAction workspace w = true
       ↔ readOnly (options workspace) = false)
  ∧ (∀ workspace event w,
       callback escapeAction workspace event w = (true, hideChaff w)
       ∧ effects (hideChaff w) = effects w ++ [HideChaff]).
Proof.
  destruct installed_lookup as (Hescape & _).
  split; [exact Hescape|]. split; [|split; [exact escape_eligible|]].
  - intros key. rewrite installed_bound_keys, elem_of_defaultBindings.
    unfold escapeKeys. rewrite !elem_of_cons, elem_of_nil. split.
    + intros [[_ H]|[[[=] _]|[[[=] _]|[[[=] _]|[[[=] _]|[[[=] _]|[[=] _]]]]]]].
      destruct H as [H|[]]; exact H.
    + intros H. left. split; [reflexivity|]. left. exact H.
  - intros workspace event w. split; reflexivity.
Qed.

(** X4: on a workspace that is not read-only the Escape key is always handled
    by escape, which dismisses the transient UI: also while dragging, also
    without a selection, and whatever the key codes are. *)
Theorem escape_key_dismisses workspace event w :
  readOnly (options workspace) = false →
  resolve installed (pretty KeyCodes.ESC) workspace event w
  = (Handled names.ESCAPE, hideChaff w).
Proof.
  intros Hro. destruct installed_lookup as (Hescape & _).
  unfold resolve. rewrite installed_candidates.
  unfold boundNames, defaultBindings, escapeKeys. cbn [fmap list_fmap app].
  rewrite filter_cons_True by same_key. rewrite fmap_cons. cbn [snd].
  apply resolve_candidates_stop with escapeAction.
  - exact Hescape.
  - apply escape_eligible. exact Hro.
  - reflexivity.
Qed.

(** X5: the shortcut registered as "paste" is bound to ctrl+V, alt+V and
    meta+V, and to no other key; its precondition holds exactly when the
    workspace is not read-only and no gesture is in progress (the selection
    does not matter); its callback calls the clipboard's paste, nothing
    else, and returns what it reports. *)
Theorem paste_shortcut_contract :
  shortcuts installed !! names.PASTE = Some pasteShortcut
  ∧ (∀ key,
       names.PASTE ∈ candidates installed key
       ↔ key = createSerializedKey KeyCodes.V [KeyCodes.CTRL]
         ∨ key = createSerializedKey KeyCodes.V [KeyCodes.ALT]
         ∨ key = createSerializedKey KeyCodes.V [KeyCodes.META])
  ∧ (∀ workspace w,
       eligible pasteShortcut workspace w = true
       ↔ readOnly (options workspace) = false
         ∧ Gesture_inProgress w = false)
  ∧ (∀ workspace event w,
       callback pasteShortcut workspace event w
       = (clipboard_paste_result w, perform ClipboardPaste w)
       ∧ effects (perform ClipboardPaste w) = effects w ++ [ClipboardPaste]).
Proof.
  destruct installed_lookup as (_ & _ & _ & _ & Hpaste & _).
  split; [exact Hpaste|]. split; [|split; [exact paste_eligible|]].
  - intros key. rewrite installed_bound_keys, elem_of_defaultBindings.
    unfold pasteKeys. rewrite !elem_of_cons, elem_of_nil. split.
    + intros [[[=] _]|[[[=] _]|[[[=] _]|[[[=] _]|[[_ H]|[[[=] _]|[[=] _]]]]]]].
      destruct H as [H|[H|[H|[]]]]; auto.
    + intros H. do 4 right. left. split; [reflexivity|].
      destruct H as [H|[H|H]]; auto.
  - intros workspace event w. split; reflexivity.
Qed.

(** Dispatching a key whose only candidate is eligible but declines. *)
Lemma resolve_single_declined r key n shortcut workspace event w w' :
  candidates r key = [n] →
  shortcuts r !! n = Some shortcut →
  eligible shortcut workspace w = true →
  callback shortcut workspace event w = (false, w') →
  resolve r key workspace event w = (Unhandled, w').
Proof.
  intros Hk Hn Hel Hcb. unfold resolve. rewrite Hk.
  cbn [resolve_candidates]. rewrite Hn, Hel, Hcb. reflexivity.
Qed.

(** X6: on a writable workspace with no gesture in progress, ctrl+V, alt+V
    and meta+V call the clipboard's paste once; the event is handled by
    paste when the paste reports success, and is left unhandled (for the
    browser to act on) when it reports failure. *)
Theorem paste_dispatch_reports_clipboard workspace event w key :
  KeyCodes.distinct kc →
  readOnly (options workspace) = false →
  Gesture_inProgress w = false →
  key ∈ [createSerializedKey KeyCodes.V [KeyCodes.CTRL];
         createSerializedKey KeyCodes.V [KeyCodes.ALT];
         createSerializedKey KeyCodes.V [KeyCodes.META]] →
  resolve installed key workspace event w
  = (if clipboard_paste_result w then Handled names.PASTE else Unhandled,
     perform ClipboardPaste w).
Proof.
  intros Hd%distinct_inv Hro Hg Hkey.
  destruct Hd as ((?&?&?&?&?&?&?&?&?&?)&(?&?&?&?&?&?)).
  destruct installed_lookup as (_ & _ & _ & _ & Hpaste & _).
  assert (candidates installed key = [names.PASTE]) as Hc.
  { rewrite installed_candidates.
    repeat (apply elem_of_cons in Hkey as [->|Hkey]; [names_of_key|]).
    apply elem_of_nil in Hkey. destruct Hkey. }
  assert (eligible pasteShortcut workspace w = true) as Hel
    by (apply paste_eligible; split; assumption).
  destruct (clipboard_paste_result w) eqn:Hp.
  - apply resolve_single_handled with pasteShortcut; try assumption.
    cbn [callback pasteShortcut]. unfold clipboard_paste. rewrite Hp.
    reflexivity.
  - apply resolve_single_declined with names.PASTE pasteShortcut;
      try assumption.
    cbn [callback pasteShortcut]. unfold clipboard_paste. rewrite Hp.
    reflexivity.
Qed.

(** X7: the shortcut registered as "copy" is bound to ctrl+C, alt+C and
    meta+C, and to no other key; on a writable workspace with no gesture in
    progress and a selected item that is deletable and movable, each of
    these keys is handled by copy, which prevents the default action,
    dismisses the transient UI and copies the selected item, in that order,
    and deletes nothing. *)
Theorem copy_dispatch_copies_selection workspace event w item :
  KeyCodes.distinct kc →
  readOnly (options workspace) = false →
  Gesture_inProgress w = false →
  selected w = Some item →
  ICopyable.isDeletable item = true →
  ICopyable.isMovable item = true →
  (∀ key,
     names.COPY ∈ candidates installed key
     ↔ key = createSerializedKey KeyCodes.C [KeyCodes.CTRL]
       ∨ key = createSerializedKey KeyCodes.C [KeyCodes.ALT]
       ∨ key = createSerializedKey KeyCodes.C [KeyCodes.META])
  ∧ (∀ key,
       names.COPY ∈ candidates installed key →
       resolve installed key workspace event w
       = (Handled names.COPY,
          clipboard_copy (Some item) (hideChaff (preventDefault event w))))
  ∧ effects (clipboard_copy (Some item) (hideChaff (preventDefault event w)))
    = effects w
      ++ [PreventDefault event; HideChaff; ClipboardCopy (Some item)].
Proof.
  intros Hd%distinct_inv Hro Hg Hsel Hdel Hmov.
  destruct Hd as ((?&?&?&?&?&?&?&?&?&?)&(?&?&?&?&?&?)).
  destruct installed_lookup as (_ & _ & Hcopy & _).
  assert (Hkeys : ∀ key,
     names.COPY ∈ candidates installed key
     ↔ key = createSerializedKey KeyCodes.C [KeyCodes.CTRL]
       ∨ key = createSerializedKey KeyCodes.C [KeyCodes.ALT]
       ∨ key = createSerializedKey KeyCodes.C [KeyCodes.META]).
  { intros key. rewrite installed_bound_keys, elem_of_defaultBindings.
    unfold copyKeys. rewrite !elem_of_cons, elem_of_nil. split.
    + intros [[[=] _]|[[[=] _]|[[_ Hin]|[[[=] _]|[[[=] _]|[[[=] _]|[[=] _]]]]]]].
      destruct Hin as [Hin|[Hin|[Hin|[]]]]; auto.
    + intros Hin. do 2 right. left. split; [reflexivity|].
      destruct Hin as [Hin|[Hin|Hin]]; auto. }
  split; [exact Hkeys|]. split.
  - intros key Hkey%Hkeys.
    apply resolve_single_handled with copyShortcut.
    + rewrite installed_candidates.
      destruct Hkey as [->|[->| ->]]; names_of_key.
    + exact Hcopy.
    + apply copy_eligible. split; [exact Hro|]. split; [exact Hg|].
      exists item. split; [exact Hsel|]. split; assumption.
    + cbn [callback copyShortcut].
      unfold hideChaff at 1, preventDefault at 1, perform; cbn [selected].
      rewrite Hsel. reflexivity.
  - unfold clipboard_copy, hideChaff, preventDefault, perform; cbn [effects].
    rewrite <- !app_assoc. reflexivity.
Qed.

(** X8: on a writable workspace with a deletable item selected, Delete and
    Backspace always prevent the browser's default action first; with a
    gesture in progress nothing is deleted and the event stays unhandled,
    otherwise the selected item is deleted and the event is handled by
    delete. *)
Theorem delete_key_dispatch workspace event w item key :
  distinct_bare_keys kc →
  readOnly (options workspace) = false →
  selected w = Some item →
  ICopyable.isDeletable item = true →
  key ∈ [pretty KeyCodes.DELETE; pretty KeyCodes.BACKSPACE] →
  resolve installed key workspace event w
  = if Gesture_inProgress w
    then (Unhandled, preventDefault event w)
    else (Handled names.DELETE,
          deleteBlock (Some item) (preventDefault event w)).
Proof.
  intros Hb Hro Hsel Hdel Hkey. unfold distinct_bare_keys in Hb.
  repeat match goal with
    | H : NoDup (_ :: _) |- _ => apply NoDup_cons in H as [? ?]
    | H : _ ∉ _ :: _ |- _ => apply not_elem_of_cons in H as [? ?]
    end.
  destruct installed_lookup as (_ & Hdelete & _).
  assert (candidates installed key = [names.DELETE]) as Hc.
  { rewrite installed_candidates.
    repeat (apply elem_of_cons in Hkey as [->|Hkey]; [names_of_key|]).
    apply elem_of_nil in Hkey. destruct Hkey. }
  assert (eligible deleteShortcut workspace w = true) as Hel.
  { apply delete_eligible. split; [exact Hro|].
    exists item. split; assumption. }
  destruct (Gesture_inProgress w) eqn:Hg.
  - apply resolve_single_declined with names.DELETE deleteShortcut;
      try assumption.
    cbn [callback deleteShortcut].
    unfold preventDefault at 1, perform; cbn [Gesture_inProgress].
    rewrite Hg. reflexivity.
  - apply resolve_single_handled with deleteShortcut; try assumption.
    cbn [callback deleteShortcut].
    unfold preventDefault at 1 3, perform; cbn [Gesture_inProgress selected].
    rewrite Hg, Hsel. reflexivity.
Qed.

(** X9: redo is bound to ctrl+Y only: alt+Y and meta+Y have no candidate, so
    they are unhandled whatever the workspace and the editor state, and
    nothing is called. *)
Theorem redo_on_Y_needs_ctrl workspace event w key :
  KeyCodes.distinct kc →
  key ∈ [createSerializedKey KeyCodes.Y [KeyCodes.ALT];
         createSerializedKey KeyCodes.Y [KeyCodes.META]] →
  candidates installed key = []
  ∧ resolve installed key workspace event w = (Unhandled, w).
Proof.
  intros Hd%distinct_inv Hkey.
  destruct Hd as ((?&?&?&?&?&?&?&?&?&?)&(?&?&?&?&?&?)).
  assert (candidates installed key = []) as Hc.
  { rewrite installed_candidates.
    repeat (apply elem_of_cons in Hkey as [->|Hkey]; [names_of_key|]).
    apply elem_of_nil in Hkey. destruct Hkey. }
  split; [exact Hc|]. unfold resolve. rewrite Hc. reflexivity.
Qed.

(** X10: every key the installer binds either carries ctrl, alt or meta, or is
    one of the bare Escape, Delete and Backspace keys bound to escape and
    delete: no letter key is bound without a modifier or with shift
    alone. *)
Theorem bound_keys_need_ctrl_alt_or_meta (k : N) (M : list N) n :
  n ∈ candidates installed (createSerializedKey k M) →
  (KeyCodes.CTRL ∈ M ∨ KeyCodes.ALT ∈ M ∨ KeyCodes.META ∈ M)
  ∨ (k ∈ [KeyCodes.ESC; KeyCodes.DELETE; KeyCodes.BACKSPACE]
     ∧ n ∈ [names.ESCAPE; names.DELETE]
     ∧ (KeyCodes.CTRL ∉ M) ∧ (KeyCodes.ALT ∉ M)
     ∧ (KeyCodes.SHIFT ∉ M) ∧ (KeyCodes.META ∉ M)).
Proof.
  rewrite installed_bound_keys, elem_of_defaultBindings.
  unfold escapeKeys, deleteKeys, copyKeys, cutKeys, pasteKeys, undoKeys,
    redoKeys.
  rewrite !elem_of_cons, !elem_of_nil, <- !createSerializedKey_bare.
  intros Hin.
  decompose [and or] Hin; clear Hin; try contradiction;
    match goal with
    | Heq : createSerializedKey _ _ = createSerializedKey _ _ |- _ =>
        apply createSerializedKey_eq_inv in Heq
          as (Hk & Hc & Ha & Hs & Hm);
        rewrite ?elem_of_cons, ?elem_of_nil in Hc, Ha, Hs, Hm
    end.
  all: try (left; left; apply Hc; auto; fail).
  all: try (left; right; left; apply Ha; auto; fail).
  all: try (left; right; right; apply Hm; auto; fail).
  all: right; tauto.
Qed.

(** Under distinct key codes the installer binds nineteen different keys. *)
Lemma defaultBindings_keys_NoDup :
  KeyCodes.distinct kc → distinct_bare_keys kc →
  NoDup defaultBindings.*1.
Proof.
  intros Hd%distinct_inv Hb. unfold distinct_bare_keys in Hb.
  destruct Hd as ((?&?&?&?&?&?&?&?&?&?)&(?&?&?&?&?&?)).
  repeat match goal with
    | H : NoDup (_ :: _) |- _ => apply NoDup_cons in H as [? ?]
    | H : _ ∉ _ :: _ |- _ => apply not_elem_of_cons in H as [? ?]
    end.
  unfold defaultBindings, escapeKeys, deleteKeys, copyKeys, cutKeys,
    pasteKeys, undoKeys, redoKeys.
  cbn [fmap list_fmap app fst].
  repeat (apply NoDup_cons; split;
          [rewrite ?not_elem_of_cons;
           repeat (split; [other_key|]); apply not_elem_of_nil|]).
  apply NoDup_nil_2.
Qed.

Lemma filter_key_at_most_one (l : list (string * string)) key :
  NoDup l.*1 → length (filter (λ b, b.1 = key) l) ≤ 1.
Proof.
  induction l as [|[k n] l IH]; intros Hnd; [cbn; lia|].
  rewrite fmap_cons in Hnd. apply NoDup_cons in Hnd as [Hk Hnd].
  rewrite filter_cons. cbn [fst]. case_decide as Hkey; [|exact (IH Hnd)].
  subst k. cbn [length].
  destruct (filter (λ b, b.1 = key) l) as [|b rest] eqn:Hf; [cbn; lia|].
  exfalso. apply Hk.
  assert (b ∈ filter (λ b, b.1 = key) l) as Hb by (rewrite Hf; left).
  apply list_elem_of_filter in Hb as [Hbk Hbl]. subst key.
  exact (list_elem_of_fmap_2 fst l b Hbl).
Qed.

(** X11: with distinct key codes no two default shortcuts share a key: after
    the installer has run on the empty registry every key has at most one
    candidate, and a key the installer binds to a name has that name as its
    only candidate. *)
Theorem default_keys_do_not_collide :
  KeyCodes.distinct kc → distinct_bare_keys kc →
  (∀ key, length (candidates installed key) ≤ 1)
  ∧ (∀ key n, (key, n) ∈ defaultBindings → candidates installed key = [n]).
Proof.
  intros Hd Hb.
  assert (Hlen : ∀ key, length (candidates installed key) ≤ 1).
  { intros key. rewrite installed_candidates. unfold boundNames.
    rewrite length_fmap. apply filter_key_at_most_one.
    by apply defaultBindings_keys_NoDup. }
  split; [exact Hlen|].
  intros key n Hin%installed_bound_keys. specialize (Hlen key).
  destruct (candidates installed key) as [|n1 [|n2 rest]].
  - by apply elem_of_nil in Hin.
  - apply list_elem_of_singleton in Hin. by subst.
  - cbn in Hlen. lia.
Qed.

(** X14: after the installer has run on the empty registry exactly the seven
    default names are registered, each shortcut is stored under its own
    name, every candidate of every key is registered, and each of the seven
    shortcuts can be reached from at least one key. *)
Theorem installed_registry_well_formed :
  (∀ n, is_Some (shortcuts installed !! n) ↔ n ∈ defaultNames)
  ∧ (∀ n shortcut, shortcuts installed !! n = Some shortcut →
                   name shortcut = n)
  ∧ bindings_closed installed
  ∧ (∀ n, n ∈ defaultNames → ∃ key, n ∈ candidates installed key).
Proof.
  rewrite installed_shortcuts.
  assert (Hdom : ∀ n, is_Some (defaultShortcuts !! n) ↔ n ∈ defaultNames).
  { intros n. split.
    - intros [shortcut Hs]. unfold defaultNames. rewrite !elem_of_cons.
      apply defaultShortcuts_inv in Hs. tauto.
    - intros Hn. destruct (defaultShortcuts !! n) eqn:Hs; [by eexists|].
      unfold defaultNames in Hn. destruct defaultShortcuts_lookup
        as (H1 & H2 & H3 & H4 & H5 & H6 & H7).
      repeat (apply elem_of_cons in Hn as [->|Hn]; [congruence|]).
      by apply elem_of_nil in Hn. }
  split; [exact Hdom|]. split; [|split].
  - intros n shortcut Hs. apply defaultShortcuts_inv in Hs.
    destruct Hs as [[-> ->]|[[-> ->]|[[-> ->]|[[-> ->]|[[-> ->]|[[-> ->]
      |[-> ->]]]]]]]; reflexivity.
  - intros key n Hin%installed_bound_keys. rewrite installed_shortcuts.
    by apply defaultBindings_registered with key.
  - intros n Hn. unfold defaultNames in Hn.
    repeat (apply elem_of_cons in Hn as [->|Hn];
            [eexists; apply installed_bound_keys, elem_of_defaultBindings;
             pick_reachable|]).
    by apply elem_of_nil in Hn.
Qed.

(** X15: the preconditions are nested: cut is available only when copy is,
    copy only when delete and paste are, paste, undo and redo are available
    in exactly the same states (redo's test is written in the opposite
    order), and every shortcut that is available leaves escape
    available. *)
Theorem preconditions_nested workspace w :
  (eligible cutShortcut workspace w = true →
   eligible copyShortcut workspace w = true)
  ∧ (eligible copyShortcut workspace w = true →
     eligible deleteShortcut workspace w = true
     ∧ eligible pasteShortcut workspace w = true)
  ∧ eligible undoShortcut workspace w = eligible pasteShortcut workspace w
  ∧ eligible redoShortcut workspace w = eligible undoShortcut workspace w
  ∧ (eligible deleteShortcut workspace w = true
     ∨ eligible pasteShortcut workspace w = true →
     eligible escapeAction workspace w = true).
Proof.
  split; [|split; [|split; [|split]]].
  - intros (Hro & Hg & item & Hsel & Hdel & Hmov & _)%cut_eligible.
    apply copy_eligible. eauto 10.
  - intros (Hro & Hg & item & Hsel & Hdel & Hmov)%copy_eligible. split.
    + apply delete_eligible. eauto.
    + apply paste_eligible. eauto.
  - reflexivity.
  - unfold eligible, redoShortcut, undoShortcut, js_and; cbn.
    by destruct (readOnly (options workspace)), (Gesture_inProgress w).
  - intros [[Hro _]%delete_eligible|[Hro _]%paste_eligible];
      by apply escape_eligible.
Qed.

End Dispatch.

(* ===================================================================== *)
(** ** Further runs on concrete input *)

(** X1 with the key codes browsers report. *)
Lemma read_only_workspace_unhandled_witness :
  readOnly (options read_only_workspace) = true
  ∧ resolve (installed (kc := KeyCodes.dom)) "Control+90"
      read_only_workspace sample_event movable_world
    = (Unhandled, movable_world).
Proof.
  split; [reflexivity|].
  apply (read_only_workspace_unhandled (kc := KeyCodes.dom)
           read_only_workspace sample_event movable_world "Control+90").
  reflexivity.
Defined.

(** X2 with the key codes browsers report. *)
Lemma gesture_in_progress_edits_nothing_witness :
  Gesture_inProgress dragging_world = true
  ∧ ∃ added,
      effects (resolve (installed (kc := KeyCodes.dom)) "46"
                 sample_workspace sample_event dragging_world).2
      = effects dragging_world ++ added
      ∧ Forall harmless added
      ∧ ((resolve (installed (kc := KeyCodes.dom)) "46"
            sample_workspace sample_event dragging_world).1 = Unhandled
         ∨ (resolve (installed (kc := KeyCodes.dom)) "46"
              sample_workspace sample_event dragging_world).1
           = Handled names.ESCAPE).
Proof.
  split; [reflexivity|].
  apply (gesture_in_progress_edits_nothing (kc := KeyCodes.dom)
           sample_workspace sample_event dragging_world "46").
  reflexivity.
Defined.

(** X4 with the key codes browsers report. *)
Lemma escape_key_dismisses_witness :
  readOnly (options sample_workspace) = false
  ∧ resolve (installed (kc := KeyCodes.dom)) "27"
      sample_workspace sample_event dragging_world
    = (Handled "escape", hideChaff dragging_world).
Proof.
  split; [reflexivity|].
  apply (escape_key_dismisses (kc := KeyCodes.dom)
           sample_workspace sample_event dragging_world).
  reflexivity.
Defined.

(** X6 with the key codes browsers report. *)
Lemma paste_dispatch_reports_clipboard_witness :
  KeyCodes.distinct KeyCodes.dom
  ∧ clipboard_paste_result movable_world = false
  ∧ resolve (installed (kc := KeyCodes.dom)) "Control+86"
      sample_workspace sample_event movable_world
    = (Unhandled, perform ClipboardPaste movable_world).
Proof.
  assert (Hd : KeyCodes.distinct KeyCodes.dom)
    by (split; apply (bool_decide_unpack _); vm_compute; exact I).
  split; [exact Hd|]. split; [reflexivity|].
  apply (paste_dispatch_reports_clipboard (kc := KeyCodes.dom)
           sample_workspace sample_event movable_world
           (createSerializedKey (kc := KeyCodes.dom) 86 [17%N]) Hd
           eq_refl eq_refl).
  apply list_elem_of_here.
Defined.

(** X7 with the key codes browsers report. *)
Lemma copy_dispatch_copies_selection_witness :
  KeyCodes.distinct KeyCodes.dom
  ∧ resolve (installed (kc := KeyCodes.dom)) "Control+67"
      sample_workspace sample_event movable_world
    = (Handled "copy",
       clipboard_copy (Some movable_block)
         (hideChaff (preventDefault sample_event movable_world))).
Proof.
  assert (Hd : KeyCodes.distinct KeyCodes.dom)
    by (split; apply (bool_decide_unpack _); vm_compute; exact I).
  split; [exact Hd|].
  destruct (copy_dispatch_copies_selection (kc := KeyCodes.dom)
              sample_workspace sample_event movable_world movable_block Hd
              eq_refl eq_refl eq_refl eq_refl eq_refl)
    as (Hkeys & Hcopy & _).
  apply (Hcopy (createSerializedKey (kc := KeyCodes.dom) 67 [17%N])).
  apply Hkeys. left. reflexivity.
Defined.

(** X8 with the key codes browsers report. *)
Lemma delete_key_dispatch_witness :
  distinct_bare_keys KeyCodes.dom
  ∧ resolve (installed (kc := KeyCodes.dom)) "46"
      sample_workspace sample_event dragging_world
    = (Unhandled, preventDefault sample_event dragging_world)
  ∧ resolve (installed (kc := KeyCodes.dom)) "8"
      sample_workspace sample_event sample_world
    = (Handled "delete",
       deleteBlock (Some sample_block)
         (preventDefault sample_event sample_world)).
Proof.
  assert (Hb : distinct_bare_keys KeyCodes.dom)
    by (apply (bool_decide_unpack _); vm_compute; exact I).
  split; [exact Hb|].
  pose proof (delete_key_dispatch (kc := KeyCodes.dom)
                sample_workspace sample_event dragging_world sample_block
                (pretty 46%N) Hb eq_refl eq_refl eq_refl
                (list_elem_of_here _ _)) as Hdrag.
  pose proof (delete_key_dispatch (kc := KeyCodes.dom)
                sample_workspace sample_event sample_world sample_block
                (pretty 8%N) Hb eq_refl eq_refl eq_refl
                (list_elem_of_further _ _ _ (list_elem_of_here _ _)))
    as Hidle.
  vm_compute in Hdrag, Hidle |- *. split; [exact Hdrag|exact Hidle].
Defined.

(** X9 with the key codes browsers report. *)
Lemma redo_on_Y_needs_ctrl_witness :
  KeyCodes.distinct KeyCodes.dom
  ∧ candidates (installed (kc := KeyCodes.dom)) "Meta+89" = []
  ∧ resolve (installed (kc := KeyCodes.dom)) "Meta+89"
      sample_workspace sample_event movable_world
    = (Unhandled, movable_world).
Proof.
  assert (Hd : KeyCodes.distinct KeyCodes.dom)
    by (split; apply (bool_decide_unpack _); vm_compute; exact I).
  split; [exact Hd|].
  apply (redo_on_Y_needs_ctrl (kc := KeyCodes.dom)
           sample_workspace sample_event movable_world
           (createSerializedKey (kc := KeyCodes.dom) 89 [91%N]) Hd).
  apply list_elem_of_further, list_elem_of_here.
Defined.

(** X10 with the key codes browsers report. *)
Lemma bound_keys_need_ctrl_alt_or_meta_witness :
  "undo" ∈ candidates (installed (kc := KeyCodes.dom))
             (createSerializedKey (kc := KeyCodes.dom) 90 [17%N])
  ∧ ((17%N ∈ [17%N] ∨ 18%N ∈ [17%N] ∨ 91%N ∈ [17%N])
     ∨ (90%N ∈ [27%N; 46%N; 8%N]
        ∧ "undo" ∈ [names.ESCAPE; names.DELETE]
        ∧ (17%N ∉ [17%N]) ∧ (18%N ∉ [17%N])
        ∧ (16%N ∉ [17%N]) ∧ (91%N ∉ [17%N]))).
Proof.
  assert (Hin : "undo" ∈ candidates (installed (kc := KeyCodes.dom))
                  (createSerializedKey (kc := KeyCodes.dom) 90 [17%N]))
    by (vm_compute; apply list_elem_of_here).
  split; [exact Hin|].
  exact (bound_keys_need_ctrl_alt_or_meta (kc := KeyCodes.dom)
           90 [17%N] "undo" Hin).
Defined.

(** X11 with the key codes browsers report. *)
Lemma default_keys_do_not_collide_witness :
  KeyCodes.distinct KeyCodes.dom
  ∧ distinct_bare_keys KeyCodes.dom
  ∧ length (candidates (installed (kc := KeyCodes.dom)) "Control+88") ≤ 1
  ∧ length (candidates (installed (kc := KeyCodes.dom)) "Shift+88") ≤ 1.
Proof.
  assert (Hd : KeyCodes.distinct KeyCodes.dom)
    by (split; apply (bool_decide_unpack _); vm_compute; exact I).
  assert (Hb : distinct_bare_keys KeyCodes.dom)
    by (apply (bool_decide_unpack _); vm_compute; exact I).
  split; [exact Hd|]. split; [exact Hb|].
  destruct (default_keys_do_not_collide (kc := KeyCodes.dom) Hd Hb)
    as [Hlen _].
  split; apply Hlen.
Defined.
